(** * sjp_flow_tracker: daily price scraper and quarterly flow estimator

    A shallow embedding of [sjp_flow_tracker.py] and the properties of its
    flow back-solver, its two CSV ledgers and its scheduling dates.

    Definitions:
    - [Calendar]  : [datetime.date] and the pandas offsets the script uses
                    ([MonthBegin], [QuarterBegin(startingMonth=1)],
                    [bdate_range(..., freq="C")]);
    - [Binary64]  : IEEE-754 double precision, the arithmetic of Python's
                    [float] and of [numpy.float64];
    - [Frame]     : the DataFrame operations of the ledgers
                    ([concat], [drop_duplicates(subset=...)], [.loc]);
    - [Tracker]   : [get_month_end_size], [backsolve_flows] and [main], in
                    a monad of exceptions over the requests made and the
                    lines printed;
    - [Scenarios] : the inputs of the concrete runs.

    Properties: [CalendarFacts], [Binary64Facts], [FrameFacts],
    [TrackerFacts]. *)

From Stdlib Require Import ZArith List Bool String Ascii DecimalString.
From Stdlib Require Import Lia QArith Qround Lqa.
From Stdlib Require PrimFloat FloatOps Uint63.
Import ListNotations.
Open Scope Z_scope.

(* ================================================================== *)
(** * Calendar dates and pandas date offsets *)
(* ================================================================== *)

Module Calendar.

(** [datetime.date]. *)
Record date : Type := mkdate { year : Z; month : Z; day : Z }.

Definition date_eqb (a b : date) : bool :=
  (year a =? year b) && (month a =? month b) && (day a =? day b).

Definition is_leap (y : Z) : bool :=
  ((y mod 4 =? 0) && negb (y mod 100 =? 0)) || (y mod 400 =? 0).

Definition days_in_month (y m : Z) : Z :=
  if m =? 2 then (if is_leap y then 29 else 28)
  else if (m =? 4) || (m =? 6) || (m =? 9) || (m =? 11) then 30
  else 31.

(** A date [datetime.date] accepts. *)
Definition valid_date (d : date) : Prop :=
  1 <= year d <= 9999 /\ 1 <= month d <= 12 /\
  1 <= day d <= days_in_month (year d) (month d).

(** The last calendar day of the month [d] lies in. *)
Definition is_month_end (d : date) : bool :=
  day d =? days_in_month (year d) (month d).

(** The last calendar day of the month before the one [d] lies in. *)
Definition prev_month_end (d : date) : date :=
  let y := if month d =? 1 then year d - 1 else year d in
  let m := if month d =? 1 then 12 else month d - 1 in
  mkdate y m (days_in_month y m).

(** The last calendar day of the month three months before the one [d]
    lies in: 31 December for 31 March. *)
Definition month_end_three_months_before (d : date) : date :=
  let y := if month d <=? 3 then year d - 1 else year d in
  let m := if month d <=? 3 then month d + 9 else month d - 3 in
  mkdate y m (days_in_month y m).

(** [today.replace(day=1)]. *)
Definition replace_day1 (d : date) : date := mkdate (year d) (month d) 1.

(** Days since 1970-01-01 in the proleptic Gregorian calendar. *)
Definition days_from_civil (d : date) : Z :=
  let y := if month d <=? 2 then year d - 1 else year d in
  let era := y / 400 in
  let yoe := y - era * 400 in
  let mp := (month d + 9) mod 12 in
  let doy := (153 * mp + 2) / 5 + day d - 1 in
  let doe := yoe * 365 + yoe / 4 - yoe / 100 + doy in
  era * 146097 + doe - 719468.

(** [date.weekday()]: Monday is 0, Sunday is 6. *)
Definition weekday (d : date) : Z := (days_from_civil d + 3) mod 7.

(** The next calendar day. *)
Definition next_day (d : date) : date :=
  if day d <? days_in_month (year d) (month d)
  then mkdate (year d) (month d) (day d + 1)
  else if month d <? 12 then mkdate (year d) (month d + 1) 1
  else mkdate (year d + 1) 1 1.

(** ** pandas [tslibs.offsets] *)

(** [shift_month(stamp, months, day_opt="start")]: move by whole months and
    land on the first day of the month reached. *)
Definition shift_month_start (stamp : date) (months : Z) : date :=
  let dy := (month stamp + months) / 12 in
  let m := (month stamp + months) mod 12 in
  let '(m, dy) := if m =? 0 then (12, dy - 1) else (m, dy) in
  mkdate (year stamp + dy) m 1.

(** [roll_convention(other, n, compare)]. *)
Definition roll_convention (other n compare : Z) : Z :=
  if (0 <? n) && (other <? compare) then n - 1
  else if (n <=? 0) && (compare <? other) then n + 1
  else n.

(** [roll_qtrday(other, n, month, day_opt="start", modby=3)]; the day of
    the month to compare with is 1. *)
Definition roll_qtrday (other : date) (n startingMonth : Z) : Z :=
  let months_since := month other mod 3 - startingMonth mod 3 in
  if 0 <? n then
    (if (months_since <? 0) || ((months_since =? 0) && (day other <? 1))
     then n - 1 else n)
  else
    (if (0 <? months_since) || ((months_since =? 0) && (1 <? day other))
     then n + 1 else n).

(** [MonthBegin(n)._apply(other)]. *)
Definition MonthBegin_apply (n : Z) (other : date) : date :=
  shift_month_start other (roll_convention (day other) n 1).

(** [QuarterBegin(n, startingMonth)._apply(other)]. *)
Definition QuarterBegin_apply (n startingMonth : Z) (other : date) : date :=
  let months_since := month other mod 3 - startingMonth mod 3 in
  let qtrs := roll_qtrday other n startingMonth in
  shift_month_start other (qtrs * 3 - months_since).

(** [other - offset] is [(-offset) + other]: the offset applied with [-n]. *)
Definition sub_MonthBegin (other : date) : date := MonthBegin_apply (-1) other.

Definition sub_QuarterBegin_1 (other : date) : date :=
  QuarterBegin_apply (-1) 1 other.

(** [pd.bdate_range(start, periods=periods, freq="C")] with the default
    week mask and no holidays: the first [periods] days from [start] on
    that fall on Monday to Friday.  [fuel] bounds the calendar days
    scanned. *)
Fixpoint bdays_scan (fuel : nat) (d : date) (periods : nat) : list date :=
  match fuel, periods with
  | _, O => []
  | O, _ => []
  | S fuel', S periods' =>
      if weekday d <? 5
      then d :: bdays_scan fuel' (next_day d) periods'
      else bdays_scan fuel' (next_day d) periods
  end.

Definition bdate_range (start : date) (periods : nat) : list date :=
  bdays_scan (2 * periods + 2) start periods.

(** ** Notions used to state the properties of the dates *)

(** The first day of the month [k] months (0 to 12) before month [m] of
    year [y]. *)
Definition first_of_month_before (y m k : Z) : date :=
  if k <? m then mkdate y (m - k) 1 else mkdate (y - 1) (m - k + 12) 1.

(** [m in [1, 4, 7, 10]]. *)
Definition opens_quarter (m : Z) : bool :=
  existsb (Z.eqb m) [1; 4; 7; 10].

(** The days of the month of the first ten business days, by the weekday
    of the first of the month. *)
Definition first_ten_business_days (w1 : Z) : list Z :=
  match w1 with
  | 0 => [1; 2; 3; 4; 5; 8; 9; 10; 11; 12]
  | 1 => [1; 2; 3; 4; 7; 8; 9; 10; 11; 14]
  | 2 => [1; 2; 3; 6; 7; 8; 9; 10; 13; 14]
  | 3 => [1; 2; 5; 6; 7; 8; 9; 12; 13; 14]
  | 4 => [1; 4; 5; 6; 7; 8; 11; 12; 13; 14]
  | 5 => [3; 4; 5; 6; 7; 10; 11; 12; 13; 14]
  | _ => [2; 3; 4; 5; 6; 9; 10; 11; 12; 13]
  end.

End Calendar.

(* ================================================================== *)
(** * IEEE-754 binary64 *)
(* ================================================================== *)

(** Python's [float] and [numpy.float64] are IEEE-754 double precision
    numbers with round-to-nearest, ties-to-even.  Every finite double is an
    integer multiple of [2^-1074]; a finite non-zero double is kept as that
    integer.  Each operation is the exact result rounded once, as the
    standard defines it. *)

Module Binary64.

Inductive float : Type :=
| NaN
| Inf (neg : bool)
| Zero (neg : bool)
| Fin (n : Z).          (* n <> 0, the value n * 2^-1074 *)

(** [2^1074], the number of units in 1.0. *)
Definition one_units : Z := 2 ^ 1074.

(** [2^1024] in units: the magnitude at which a rounded result overflows. *)
Definition overflow_units : Z := 2 ^ 2098.

(** Round a rational to the nearest integer, ties to the even one. *)
Definition rne (x : Q) : Z :=
  let f := Qfloor x in
  match (x - inject_Z f ?= 1 # 2)%Q with
  | Lt => f
  | Gt => f + 1
  | Eq => if Z.even f then f else f + 1
  end.

(** A magnitude of [x >= 0] units has 53 significant bits and is a multiple
    of [2^k] with [k] as below; magnitudes under [2^53] units (subnormals
    and the first binade of normals) are multiples of one unit. *)
Definition ulp_shift (x : Q) : Z := Z.max 0 (Z.log2 (Qfloor x) - 52).

Definition round_mag (x : Q) : Z :=
  let k := ulp_shift x in
  rne (x / inject_Z (2 ^ k)) * 2 ^ k.

(** A rounded magnitude with its sign: underflow to a signed zero, overflow
    to a signed infinity. *)
Definition pack (neg : bool) (n : Z) : float :=
  if n =? 0 then Zero neg
  else if overflow_units <=? n then Inf neg
  else Fin (if neg then - n else n).

(** Round an exact result of [x] units; [zneg] is the sign of an exact
    zero. *)
Definition round_units (zneg : bool) (x : Q) : float :=
  match (0 ?= x)%Q with
  | Lt => pack false (round_mag x)
  | Gt => pack true (round_mag (- x))
  | Eq => Zero zneg
  end.

Definition units (x : float) : Z :=
  match x with Fin n => n | _ => 0 end.

Definition sign (x : float) : bool :=
  match x with
  | NaN => false
  | Inf s | Zero s => s
  | Fin n => n <? 0
  end.

Definition opp (x : float) : float :=
  match x with
  | NaN => NaN
  | Inf s => Inf (negb s)
  | Zero s => Zero (negb s)
  | Fin n => Fin (- n)
  end.

Definition add (a b : float) : float :=
  match a, b with
  | NaN, _ | _, NaN => NaN
  | Inf s, Inf t => if Bool.eqb s t then Inf s else NaN
  | Inf s, _ => Inf s
  | _, Inf t => Inf t
  | Zero s, Zero t => Zero (s && t)
  | _, _ => round_units false (inject_Z (units a + units b))
  end.

Definition sub (a b : float) : float := add a (opp b).

Definition mul (a b : float) : float :=
  match a, b with
  | NaN, _ | _, NaN => NaN
  | Inf _, Zero _ | Zero _, Inf _ => NaN
  | Inf s, _ => Inf (xorb s (sign b))
  | _, Inf t => Inf (xorb (sign a) t)
  | Zero s, _ => Zero (xorb s (sign b))
  | _, Zero t => Zero (xorb (sign a) t)
  | Fin n, Fin m =>
      round_units (xorb (n <? 0) (m <? 0))
                  (inject_Z (n * m) / inject_Z one_units)
  end.

(** Division never raises: numpy returns an infinity or NaN for a zero
    divisor (with a warning). *)
Definition div (a b : float) : float :=
  match a, b with
  | NaN, _ | _, NaN => NaN
  | Inf _, Inf _ => NaN
  | Zero _, Zero _ => NaN
  | Inf s, _ => Inf (xorb s (sign b))
  | _, Inf t => Zero (xorb (sign a) t)
  | Zero s, Fin m => Zero (xorb s (m <? 0))
  | Fin n, Zero t => Inf (xorb (n <? 0) t)
  | Fin n, Fin m =>
      round_units (xorb (n <? 0) (m <? 0))
                  (inject_Z (n * one_units) / inject_Z m)
  end.

(** [numpy.rint]: the nearest integral value, ties to even. *)
Definition rint (x : float) : float :=
  match x with
  | Fin n =>
      let r := rne (inject_Z n / inject_Z one_units) in
      if r =? 0 then Zero (n <? 0) else Fin (r * one_units)
  | _ => x
  end.

(** Conversion of a Python [int]. *)
Definition of_Z (z : Z) : float := round_units false (inject_Z (z * one_units)).

(** [<=], [<] and [==]: false as soon as a NaN is involved; the two zeros
    are equal. *)
Definition leb (a b : float) : bool :=
  match a, b with
  | NaN, _ | _, NaN => false
  | Inf true, _ => true
  | _, Inf false => true
  | Inf false, _ => false
  | _, Inf true => false
  | _, _ => units a <=? units b
  end.

Definition ltb (a b : float) : bool :=
  match a, b with
  | NaN, _ | _, NaN => false
  | Inf true, Inf true => false
  | Inf false, Inf false => false
  | Inf true, _ => true
  | _, Inf false => true
  | Inf false, _ => false
  | _, Inf true => false
  | _, _ => units a <? units b
  end.

Definition eqb (a b : float) : bool :=
  match a, b with
  | NaN, _ | _, NaN => false
  | Inf s, Inf t => Bool.eqb s t
  | Inf _, _ | _, Inf _ => false
  | _, _ => units a =? units b
  end.

Definition is_nan (x : float) : bool :=
  match x with NaN => true | _ => false end.

Definition is_finite (x : float) : bool :=
  match x with Zero _ | Fin _ => true | _ => false end.

(** Finite and strictly positive. *)
Definition is_positive (x : float) : bool :=
  match x with Fin n => 0 <? n | _ => false end.

(** Not below zero and not NaN: a zero, a positive finite number or
    [+inf]. *)
Definition nonneg (x : float) : bool :=
  match x with
  | NaN => false
  | Inf s => negb s
  | Zero _ => true
  | Fin n => 0 <? n
  end.

(** [round(x, 2)] on a [numpy.float64], which is [numpy.round]:
    [rint(x * 10**2) / 10**2]. *)
Definition round2 (x : float) : float :=
  div (rint (mul x (of_Z 100))) (of_Z 100).

(** A decimal fraction [m / 10^k], correctly rounded, as [float("...")]
    reads it. *)
Definition of_decimal (m : Z) (k : nat) : float :=
  round_units false (inject_Z (m * one_units) / inject_Z (10 ^ Z.of_nat k)).

(** The same number as a primitive double of the proof assistant, whose
    operations are those of the processor: used to compare the two
    arithmetics on the numbers of the runs below. *)
Definition to_prim (x : float) : PrimFloat.float :=
  match x with
  | NaN => PrimFloat.nan
  | Inf s => if s then PrimFloat.neg_infinity else PrimFloat.infinity
  | Zero s => if s then PrimFloat.neg_zero else PrimFloat.zero
  | Fin n =>
      let a := Z.abs n in
      let k := Z.max 0 (Z.log2 a - 52) in
      let m := FloatOps.Z.ldexp
                 (PrimFloat.of_uint63 (Uint63.of_Z (a / 2 ^ k))) (k - 1074) in
      if n <? 0 then PrimFloat.opp m else m
  end.

(** A small Python [int] as a primitive double. *)
Definition prim_of_Z (z : Z) : PrimFloat.float :=
  PrimFloat.of_uint63 (Uint63.of_Z z).

End Binary64.

(* ================================================================== *)
(** * DataFrames *)
(* ================================================================== *)

(** A DataFrame is the list of its rows, in index order.  A frame written
    with [to_csv] and read back with [read_csv] is taken to hold the rows
    that were written. *)

Module Frame.
Import Calendar.

Section DropDuplicates.
Context {A K : Type} (key : A -> K) (key_eqb : K -> K -> bool).

(** [df.drop_duplicates(subset=...)] with the default [keep="first"]: a row
    is dropped when the values of its subset columns were met in an earlier
    row. *)
Fixpoint drop_duplicates_from (seen : list K) (rows : list A) : list A :=
  match rows with
  | [] => []
  | r :: rows' =>
      if existsb (key_eqb (key r)) seen
      then drop_duplicates_from seen rows'
      else r :: drop_duplicates_from (key r :: seen) rows'
  end.

Definition drop_duplicates (rows : list A) : list A :=
  drop_duplicates_from [] rows.

(** [pd.concat([a, b])]. *)
Definition concat (a b : list A) : list A := a ++ b.

(** No two rows share the values of their subset columns. *)
Definition unique_keys (rows : list A) : Prop := NoDup (map key rows).

End DropDuplicates.

(** Rows of [prices.csv]: columns [date], [code], [price_pence]. *)
Record price_row : Type :=
  mkprice { pr_date : date; pr_code : string; price_pence : Binary64.float }.

(** Rows of [quarterly_flows.csv]: columns [quarter_end], [code],
    [flow_gbp_m]. *)
Record flow_row : Type :=
  mkflow { quarter_end : date; fl_code : string; flow_gbp_m : Binary64.float }.

Definition key_eqb (a b : date * string) : bool :=
  date_eqb (fst a) (fst b) && String.eqb (snd a) (snd b).

Definition price_key (r : price_row) : date * string := (pr_date r, pr_code r).
Definition flow_key (r : flow_row) : date * string := (quarter_end r, fl_code r).

(** [price_df.loc[(price_df["code"] == code) & (price_df["date"] == d)]]. *)
Definition loc_code_date (price_df : list price_row) (code : string) (d : date)
  : list price_row :=
  filter (fun r => String.eqb (pr_code r) code && date_eqb (pr_date r) d)
         price_df.

(** [l1] is [l2] with some elements left out. *)
Inductive subseq {A : Type} : list A -> list A -> Prop :=
| subseq_nil : subseq [] []
| subseq_skip (x : A) (l1 l2 : list A) : subseq l1 l2 -> subseq l1 (x :: l2)
| subseq_take (x : A) (l1 l2 : list A) :
    subseq l1 l2 -> subseq (x :: l1) (x :: l2).

End Frame.

(* ================================================================== *)
(** * The tracker *)
(* ================================================================== *)

Module Tracker.
Import Calendar Frame.
Local Open Scope string_scope.

(** ** Effects: exceptions, the network, the two output streams *)

Inductive exn : Type :=
| RequestException (msg : string)   (* requests.get, raise_for_status *)
| PdfError (msg : string)           (* pdfplumber.open *)
| ValueError (msg : string)
| IndexError (msg : string).

(** [str(e)]. *)
Definition str_exn (e : exn) : string :=
  match e with
  | RequestException m | PdfError m | ValueError m | IndexError m => m
  end.

(** What one [requests.get] meets: no answer at all, or an answer with its
    status ([Some reason] when [raise_for_status] raises) and its body
    ([Some pages], the text of each page, when the body is a PDF). *)
Inductive response : Type :=
| Unreachable (reason : string)
| Reply (status_error : option string) (body : option (list string)).

(** The URLs requested so far, and what was printed. *)
Record world : Type :=
  mkworld { requests : list string; stderr : list string; stdout : list string }.

Inductive outcome (A : Type) : Type :=
| Return (a : A)
| Raise (e : exn).
Arguments Return {A} a.
Arguments Raise {A} e.

Definition M (A : Type) : Type := world -> outcome A * world.

Definition ret {A} (a : A) : M A := fun w => (Return a, w).

Definition raise {A} (e : exn) : M A := fun w => (Raise e, w).

Definition bind {A B} (m : M A) (k : A -> M B) : M B :=
  fun w =>
    match m w with
    | (Return a, w') => k a w'
    | (Raise e, w') => (Raise e, w')
    end.

(** [try: m; k(result)  except Exception as e: h(e)], the body of the
    [try] being [m] alone. *)
Definition try_except {A B} (m : M A) (h : exn -> M B) (k : A -> M B) : M B :=
  fun w =>
    match m w with
    | (Return a, w') => k a w'
    | (Raise e, w') => h e w'
    end.

Notation "x <- m ;; k" := (bind m (fun x => k))
  (at level 61, m at next level, right associativity).
Notation "m ;;; k" := (bind m (fun _ => k))
  (at level 61, right associativity).

(** [print(line, file=sys.stderr)] and [print(line)]. *)
Definition print_err (line : string) : M unit :=
  fun w => (Return tt, mkworld (requests w) (stderr w ++ [line]) (stdout w)).

Definition print_out (line : string) : M unit :=
  fun w => (Return tt, mkworld (requests w) (stderr w) (stdout w ++ [line])).

(** ** Text helpers *)

(** [needle in hay]. *)
Fixpoint contains (needle hay : string) : bool :=
  String.prefix needle hay ||
  match hay with
  | EmptyString => false
  | String _ hay' => contains needle hay'
  end.

(** [s.replace(",", "")]. *)
Fixpoint remove_commas (s : string) : string :=
  match s with
  | EmptyString => EmptyString
  | String c s' =>
      if Ascii.eqb c "," then remove_commas s' else String c (remove_commas s')
  end.

Definition lower (c : ascii) : ascii :=
  let n := nat_of_ascii c in
  if ((65 <=? n) && (n <=? 90))%nat then ascii_of_nat (n + 32) else c.

(** [unit.lower().startswith("b")]. *)
Definition lower_startswith_b (s : string) : bool :=
  match s with
  | String c _ => Ascii.eqb (lower c) "b"
  | EmptyString => false
  end.

Definition decimal (z : Z) : string :=
  DecimalString.NilZero.string_of_uint (N.to_uint (Z.to_N z)).

(** Decimal, padded with zeros on the left to [width] characters. *)
Definition zero_padded (width : nat) (z : Z) : string :=
  let s := decimal z in
  String.concat "" (repeat "0" (width - String.length s)) ++ s.

Definition month_name (m : Z) : string :=
  nth (Z.to_nat (m - 1))
      ["January"; "February"; "March"; "April"; "May"; "June"; "July";
       "August"; "September"; "October"; "November"; "December"] "".

(** [as_of.strftime("%d %B %Y")]. *)
Definition strftime_d_B_Y (d : date) : string :=
  zero_padded 2 (day d) ++ " " ++ month_name (month d) ++ " " ++ decimal (year d).

(** [str(d)], as an f-string prints a date: [YYYY-MM-DD]. *)
Definition isoformat (d : date) : string :=
  zero_padded 4 (year d) ++ "-" ++ zero_padded 2 (month d) ++ "-"
  ++ zero_padded 2 (day d).

(** ** The pattern [Fund size\s*£\s*([\d.,]+)\s*([mb]n)], ignoring case *)

(** Texts are strings of bytes (UTF-8); the classes are those of the
    pattern on ASCII characters. *)

Definition is_space (c : ascii) : bool :=
  let n := nat_of_ascii c in
  ((9 <=? n) && (n <=? 13) || (28 <=? n) && (n <=? 32))%nat.

Definition is_digit (c : ascii) : bool :=
  let n := nat_of_ascii c in ((48 <=? n) && (n <=? 57))%nat.

Definition is_num_char (c : ascii) : bool :=
  is_digit c || Ascii.eqb c "." || Ascii.eqb c ",".

Fixpoint skip_spaces (s : string) : string :=
  match s with
  | String c s' => if is_space c then skip_spaces s' else s
  | EmptyString => s
  end.

(** The rest of [s] after [pat], matched ignoring case. *)
Fixpoint match_literal (pat s : string) : option string :=
  match pat, s with
  | EmptyString, _ => Some s
  | String p pat', String c s' =>
      if Ascii.eqb (lower p) (lower c) then match_literal pat' s' else None
  | String _ _, EmptyString => None
  end.

(** The longest run of [[\d.,]] at the head of [s], and the rest. *)
Fixpoint take_num (s : string) : string * string :=
  match s with
  | String c s' =>
      if is_num_char c
      then let '(num, rest) := take_num s' in (String c num, rest)
      else (EmptyString, s)
  | EmptyString => (EmptyString, s)
  end.

(** A match that starts at the head of [s]: the two groups.  The classes
    that follow one another are disjoint, so the greedy match is the only
    one. *)
Definition match_here (s : string) : option (string * string) :=
  match match_literal "Fund size" s with
  | None => None
  | Some s1 =>
      match match_literal "£" (skip_spaces s1) with
      | None => None
      | Some s2 =>
          let '(num, s3) := take_num (skip_spaces s2) in
          match num, skip_spaces s3 with
          | String _ _, String u1 (String u2 _) =>
              if (Ascii.eqb (lower u1) "m" || Ascii.eqb (lower u1) "b")
                 && Ascii.eqb (lower u2) "n"
              then Some (num, String u1 (String u2 EmptyString))
              else None
          | _, _ => None
          end
      end
  end.

(** [re.search(pattern, text, flags=re.I)] then [m.groups()]: the leftmost
    match. *)
Fixpoint re_search_fund_size (text : string) : option (string * string) :=
  match match_here text with
  | Some g => Some g
  | None =>
      match text with
      | String _ text' => re_search_fund_size text'
      | EmptyString => None
      end
  end.

(** ** [float(s)] on digits and dots *)

(** Once the commas are removed the first group holds decimal digits and
    dots only.  [float] reads [digits [. digits]] with at least one digit
    and raises [ValueError] on anything else. *)
Fixpoint read_decimal (s : string) (acc : Z) (digits : bool) (frac : option nat)
  : option (Z * nat) :=
  match s with
  | EmptyString =>
      if digits then Some (acc, match frac with Some k => k | None => O end)
      else None
  | String c s' =>
      if is_digit c
      then read_decimal s' (10 * acc + Z.of_nat (nat_of_ascii c - 48)) true
                        (option_map S frac)
      else if Ascii.eqb c "."
      then match frac with
           | None => read_decimal s' acc digits (Some O)
           | Some _ => None
           end
      else None
  end.

Definition float_of_str (s : string) : M Binary64.float :=
  match read_decimal s 0 false None with
  | Some (m, k) => ret (Binary64.of_decimal m k)
  | None => raise (ValueError ("could not convert string to float: '" ++ s ++ "'"))
  end.

(** ** The script *)

(** [FACTSHEET_PDF.format(code=code)]. *)
Definition FACTSHEET_PDF (code : string) : string :=
  "https://fundfactsheets.sjp.co.uk/Latest/" ++ code ++ "_Factsheet.pdf".

Section Script.

(** The network: what the [n]-th request of the run meets at a URL. *)
Variable internet : nat -> string -> response.

(** [r = requests.get(url, timeout=30)]. *)
Definition requests_get (url : string) : M response :=
  fun w =>
    let w' := mkworld (requests w ++ [url]) (stderr w) (stdout w) in
    match internet (List.length (requests w)) url with
    | Unreachable reason => (Raise (RequestException reason), w')
    | r => (Return r, w')
    end.

(** [r.raise_for_status()]. *)
Definition raise_for_status (r : response) : M unit :=
  match r with
  | Reply (Some reason) _ => raise (RequestException reason)
  | _ => ret tt
  end.

(** [with pdfplumber.open(io.BytesIO(r.content)) as pdf:
       text = "\n".join(page.extract_text() for page in pdf.pages)]. *)
Definition extract_text (r : response) : M string :=
  match r with
  | Reply _ (Some pages) => ret (String.concat (String "010" EmptyString) pages)
  | _ => raise (PdfError "No /Root object! - Is this really a PDF?")
  end.

(** [f"Warning: {code} factsheet not yet updated for {as_of}"]. *)
Definition stale_warning (code : string) (as_of : date) : string :=
  "Warning: " ++ code ++ " factsheet not yet updated for " ++ isoformat as_of.

Definition get_month_end_size (code : string) (as_of : date) : M Binary64.float :=
  let url := FACTSHEET_PDF code in
  r <- requests_get url ;;
  raise_for_status r ;;;
  text <- extract_text r ;;
  (if negb (contains (strftime_d_B_Y as_of) text)
   then print_err (stale_warning code as_of)
   else ret tt) ;;;
  match re_search_fund_size text with
  | None => raise (ValueError ("Could not find Fund size for " ++ code))
  | Some (num, unit) =>
      value <- float_of_str (remove_commas num) ;;
      ret (Binary64.mul value
             (Binary64.of_Z (if lower_startswith_b unit then 1000 else 1)))
  end.

(** [.iloc[0]["price_pence"]] of a selection. *)
Definition iloc0_price_pence (sel : list price_row) : M Binary64.float :=
  match sel with
  | r :: _ => ret (price_pence r)
  | [] => raise (IndexError "single positional indexer is out-of-bounds")
  end.

(** Lines 110 to 112 of the script. *)
Definition units_start (size_start p_start : Binary64.float) : Binary64.float :=
  Binary64.div (Binary64.mul size_start (Binary64.of_Z 1000000)) p_start.

Definition aum_no_flow (size_start p_start p_end : Binary64.float)
  : Binary64.float :=
  Binary64.div (Binary64.mul (units_start size_start p_start) p_end)
               (Binary64.of_Z 1000000).

Definition flow (size_start size_end p_start p_end : Binary64.float)
  : Binary64.float :=
  Binary64.sub size_end (aum_no_flow size_start p_start p_end).

(** The record the loop appends: [flow_gbp_m] is [round(flow, 2)]. *)
Definition flow_record (month_end : date) (code : string)
    (size_start size_end p_start p_end : Binary64.float) : flow_row :=
  mkflow month_end code
         (Binary64.round2 (flow size_start size_end p_start p_end)).

(** The [for code in codes] loop; [flows] is the list built so far. *)
Fixpoint backsolve_loop (month_start month_end : date) (codes : list string)
    (price_df : list price_row) (flows : list flow_row) : M (list flow_row) :=
  match codes with
  | [] => ret flows
  | code :: codes' =>
      try_except
        (size_start <- get_month_end_size code month_start ;;
         size_end <- get_month_end_size code month_end ;;
         ret (size_start, size_end))
        (fun e =>
           print_err (code ++ ": " ++ str_exn e) ;;;
           backsolve_loop month_start month_end codes' price_df flows)
        (fun '(size_start, size_end) =>
           p_start <- iloc0_price_pence (loc_code_date price_df code month_start) ;;
           p_end <- iloc0_price_pence (loc_code_date price_df code month_end) ;;
           backsolve_loop month_start month_end codes' price_df
             (flows ++ [flow_record month_end code size_start size_end
                                    p_start p_end]))
  end.

Definition quarter_start (month_end : date) : date :=
  sub_QuarterBegin_1 month_end.

Definition backsolve_flows (month_end : date) (codes : list string)
    (price_df : list price_row) : M (list flow_row) :=
  let month_start := quarter_start month_end in
  backsolve_loop month_start month_end codes price_df [].

(** ** [main] *)

(** The two CSV files of [DATA_DIR]; [None] when a file does not exist. *)
Record disk : Type :=
  mkdisk { price_file : option (list price_row);
           flow_file : option (list flow_row) }.

(** Step 1 of [main], from [price_file = ...] to [to_csv]: what is written
    to [prices.csv]. *)
Definition store_prices (file : option (list price_row))
    (prices_df : list price_row) : list price_row :=
  match file with
  | Some existing =>
      drop_duplicates price_key key_eqb (concat existing prices_df)
  | None => prices_df
  end.

(** Step 2 of [main], the same for [quarterly_flows.csv]. *)
Definition store_flows (file : option (list flow_row))
    (q_flows : list flow_row) : list flow_row :=
  match file with
  | Some existing =>
      drop_duplicates flow_key key_eqb (concat existing q_flows)
  | None => q_flows
  end.

(** The condition of the [if] of step 2: today is among the first 10 of the
    business days counted from the first of the month, and the month opens
    a quarter. *)
Definition estimation_due (today : date) : bool :=
  let biz_day := bdate_range (replace_day1 today) 20 in
  existsb (date_eqb today) (firstn 10 biz_day)
  && existsb (Z.eqb (month today)) [1; 4; 7; 10].

(** [q_end = (today - pd.offsets.MonthBegin()).date()]. *)
Definition q_end_of (today : date) : date := sub_MonthBegin today.

(** [main], given today's date, the fund codes of the two groups of
    [fund_codes.yaml] and the frames [get_daily_prices] returned. *)
Definition main (today : date) (codes_life codes_pension : list string)
    (prices_life prices_pension : list price_row) (d : disk) : M disk :=
  let prices_df := concat prices_life prices_pension in
  let prices_df := store_prices (price_file d) prices_df in
  if estimation_due today then
    let q_end := q_end_of today in
    q_flows <- backsolve_flows q_end (codes_life ++ codes_pension) prices_df ;;
    let q_flows := store_flows (flow_file d) q_flows in
    print_out ("Flows up to " ++ isoformat q_end ++ " updated.") ;;;
    ret (mkdisk (Some prices_df) (Some q_flows))
  else ret (mkdisk (Some prices_df) (flow_file d)).

(** ** Notions used to state the properties *)

(** What [get_month_end_size] makes of the answer to its request. *)
Definition document_size (code : string) (r : response)
  : outcome Binary64.float :=
  match r with
  | Unreachable reason => Raise (RequestException reason)
  | Reply (Some reason) _ => Raise (RequestException reason)
  | Reply None None => Raise (PdfError "No /Root object! - Is this really a PDF?")
  | Reply None (Some pages) =>
      match re_search_fund_size (String.concat (String "010" EmptyString) pages)
      with
      | None => Raise (ValueError ("Could not find Fund size for " ++ code))
      | Some (num, unit) =>
          match read_decimal (remove_commas num) 0 false None with
          | Some (m, k) =>
              Return (Binary64.mul (Binary64.of_decimal m k)
                        (Binary64.of_Z
                           (if lower_startswith_b unit then 1000 else 1)))
          | None =>
              Raise (ValueError ("could not convert string to float: '"
                                 ++ remove_commas num ++ "'"))
          end
      end
  end.

(** The fund size the [t]-th request of the run would yield for [code]. *)
Definition fetched_at (t : nat) (code : string) : outcome Binary64.float :=
  document_size code (internet t (FACTSHEET_PDF code)).

(** The world after one fetch that printed [warn]. *)
Definition after_fetch (w : world) (code : string) (warn : list string)
  : world :=
  mkworld (requests w ++ [FACTSHEET_PDF code]) (stderr w ++ warn) (stdout w).

(** The try block of one turn of the loop: the two fetches. *)
Definition both_fetches (month_start month_end : date) (code : string)
  : M (Binary64.float * Binary64.float) :=
  size_start <- get_month_end_size code month_start ;;
  size_end <- get_month_end_size code month_end ;;
  ret (size_start, size_end).

(** The price the exact-date lookup finds, if any. *)
Definition price_at (price_df : list price_row) (code : string) (d : date)
  : option Binary64.float :=
  match loc_code_date price_df code d with
  | r :: _ => Some (price_pence r)
  | [] => None
  end.

(** A fund whose factsheet yields a size whenever it is requested and
    whose two prices are in the frame. *)
Definition good_fund (month_start month_end : date)
    (price_df : list price_row) (code : string) : Prop :=
  (forall t, exists v, fetched_at t code = Return v) /\
  price_at price_df code month_start <> None /\
  price_at price_df code month_end <> None.

(** The fetch for the quarter start, made as request [t], fails with [e],
    or it succeeds and the fetch for the quarter end fails with [e]. *)
Definition fetch_fails (t : nat) (code : string) (e : exn) : Prop :=
  fetched_at t code = Raise e \/
  (exists v, fetched_at t code = Return v /\ fetched_at (S t) code = Raise e).

End Script.

(** From [w] to [w'] the requests grew by [urls] and stderr by [lines];
    nothing went to stdout. *)
Definition grows (w w' : world) (urls lines : list string) : Prop :=
  requests w' = (requests w ++ urls)%list /\
  stderr w' = (stderr w ++ lines)%list /\
  stdout w' = stdout w.

(** A response [get_month_end_size] cannot read a text from. *)
Definition unreadable (r : response) : bool :=
  match r with
  | Reply None (Some _) => false
  | _ => true
  end.

(** What [.iloc[0]] raises on an empty selection. *)
Definition gap_error : exn :=
  IndexError "single positional indexer is out-of-bounds".

(** Every character of [s] satisfies [p]. *)
Fixpoint all_chars (p : ascii -> bool) (s : string) : bool :=
  match s with
  | EmptyString => true
  | String c s' => p c && all_chars p s'
  end.

End Tracker.

(* ================================================================== *)
(** * Concrete runs *)
(* ================================================================== *)

(** Inputs on which the script is run below: a quarter end, the month of
    April 2024, factsheets, price frames and batches of rows. *)

Module Scenarios.
Import Calendar Frame Tracker.
Local Open Scope string_scope.

Definition w0 : world := mkworld [] [] [].

Definition q1_end : date := mkdate 2024 3 31.
Definition q1_first : date := mkdate 2024 1 1.
Definition april_10 : date := mkdate 2024 4 10.

(** A two-page factsheet whose second page carries [line]. *)
Definition factsheet (line : string) : response :=
  Reply None (Some ["St. James's Place fund factsheet"; line]).

(** Every fund has the same, unchanging factsheet. *)
Definition steady (line : string) : nat -> string -> response :=
  fun _ _ => factsheet line.

(** The factsheet changes after the first request of the run. *)
Definition changing (first later : string) : nat -> string -> response :=
  fun t _ => match t with O => factsheet first | _ => factsheet later end.

(** The factsheet of [missing] cannot be had; the others are steady. *)
Definition one_missing (missing line : string) : nat -> string -> response :=
  fun _ url =>
    if String.eqb url (FACTSHEET_PDF missing)
    then Reply (Some "404 Client Error: Not Found") None
    else factsheet line.

Definition f (z : Z) : Binary64.float := Binary64.of_Z z.

(** Prices of one fund on the two dates the back-solver looks up. *)
Definition prices (code : string) (p_start p_end : Binary64.float)
  : list price_row :=
  [mkprice q1_first code p_start; mkprice q1_end code p_end].

(** The quarter-start price of LIFE01 is missing; PENS01 has both. *)
Definition prices_with_gap : list price_row :=
  mkprice q1_end "LIFE01" (f 110) :: prices "PENS01" (f 100) (f 110).

(** Two observations of one fund on one day. *)
Definition twice_priced : list price_row :=
  [mkprice april_10 "LIFE01" (f 100); mkprice april_10 "LIFE01" (f 101)].

(** Two flow records of one fund for one quarter, as a code listed under
    both groups of [fund_codes.yaml] produces. *)
Definition twice_solved : list flow_row :=
  [mkflow q1_end "BOTH01" (f 3); mkflow q1_end "BOTH01" (f 3)].

(** A factsheet of one page. *)
Definition one_page (line : string) : nat -> string -> response :=
  fun _ _ => Reply None (Some [line]).


(** A run that records, a run that meets a price gap, a run on a steady
    factsheet, a run of [main]. *)
Definition run_good : outcome (list flow_row) * world :=
  backsolve_flows (changing "Fund size £50mn" "Fund size £58mn") q1_end
    ["LIFE01"] (prices "LIFE01" (f 100) (f 110)) w0.

Definition run_gap : outcome (list flow_row) * world :=
  backsolve_flows (steady "Fund size £7.3bn") q1_end
    ["LIFE01"; "PENS01"] prices_with_gap w0.

Definition run_steady : outcome (list flow_row) * world :=
  backsolve_flows (steady "Fund size £7.3bn") q1_end ["PENS01"]
    prices_with_gap w0.




End Scenarios.

(* ================================================================== *)
(** * Properties of the calendar *)
(* ================================================================== *)

Module CalendarFacts.
Import Calendar Tracker Scenarios.

Lemma date_eqb_eq (a b : date) : date_eqb a b = true <-> a = b.
Proof.
  destruct a as [y m d], b as [y' m' d']; unfold date_eqb; simpl.
  rewrite !andb_true_iff, !Z.eqb_eq. split.
  - intros [[-> ->] ->]. reflexivity.
  - intros H. injection H as -> -> ->. auto.
Qed.

Lemma shift_month_start_day (stamp : date) (months : Z) :
  day (shift_month_start stamp months) = 1.
Proof.
  unfold shift_month_start.
  now destruct ((month stamp + months) mod 12 =? 0).
Qed.

Lemma days_in_month_ge_28 (y m : Z) : 28 <= days_in_month y m.
Proof.
  unfold days_in_month.
  repeat match goal with |- context [if ?b then _ else _] => destruct b end;
    lia.
Qed.

Lemma first_day_not_month_end (d : date) : day d = 1 -> is_month_end d = false.
Proof.
  intros H. unfold is_month_end. apply Z.eqb_neq.
  pose proof (days_in_month_ge_28 (year d) (month d)). lia.
Qed.

(** Whatever date it is given, the back-solver's quarter start is the
    first day of a month, never a month end. *)
Lemma quarter_start_day (month_end : date) : day (quarter_start month_end) = 1.
Proof. apply shift_month_start_day. Qed.

Lemma quarter_start_not_month_end (month_end : date) :
  is_month_end (quarter_start month_end) = false.
Proof. apply first_day_not_month_end, quarter_start_day. Qed.

(** From a quarter end (the last day of March, June, September or
    December) the quarter start is the first day of that same quarter. *)
Lemma quarter_start_of_quarter_end (d : date) :
  In (month d) [3; 6; 9; 12] -> 1 < day d ->
  quarter_start d = mkdate (year d) (month d - 2) 1.
Proof.
  destruct d as [y m dd]. simpl. intros Hm Hd.
  unfold quarter_start, sub_QuarterBegin_1, QuarterBegin_apply, roll_qtrday,
    shift_month_start. simpl.
  destruct Hm as [<- | [<- | [<- | [<- | []]]]]; simpl;
    rewrite Z.add_0_r; reflexivity.
Qed.

(** The driver's quarter end is the first day of a month as well. *)
Lemma q_end_of_day (today : date) : day (q_end_of today) = 1.
Proof. apply shift_month_start_day. Qed.

Lemma q_end_of_not_month_end (today : date) :
  is_month_end (q_end_of today) = false.
Proof. apply first_day_not_month_end, q_end_of_day. Qed.

(** After the first of a month the driver's quarter end is the first day
    of the current month. *)
Lemma q_end_of_after_first (today : date) :
  1 <= month today <= 12 -> 1 < day today ->
  q_end_of today = replace_day1 today.
Proof.
  destruct today as [y m d]. simpl. intros Hm Hd.
  unfold q_end_of, sub_MonthBegin, MonthBegin_apply, roll_convention,
    shift_month_start, replace_day1. simpl.
  destruct (Z.ltb_spec d 1); [lia |].
  destruct (Z.ltb_spec 1 d); [| lia]. simpl.
  rewrite Z.add_0_r.
  destruct (Z.eq_dec m 12) as [-> | N].
  - change (12 mod 12) with 0. change (12 / 12) with 1. simpl.
    now rewrite Z.add_0_r.
  - rewrite Z.mod_small, Z.div_small by lia.
    destruct (Z.eqb_spec m 0); [lia |]. now rewrite Z.add_0_r.
Qed.

(** C1.  For the quarter end 31 March 2024 the back-solver computes the
    quarter start 1 January 2024, the first day of the quarter; the month
    end three months before, 31 December 2023, is what the claim and the
    docstring of [get_month_end_size] ask for. *)
Theorem quarter_start_of_31_march :
  quarter_start q1_end = mkdate 2024 1 1 /\
  month_end_three_months_before q1_end = mkdate 2023 12 31 /\
  is_month_end (quarter_start q1_end) = false.
Proof. repeat split. Qed.

(** C10.  On 10 April 2024, the eighth business day of a month that opens
    a quarter, the driver estimates flows and passes 1 April 2024 as the
    quarter end; the last day of the month before is 31 March 2024. *)
Theorem q_end_on_10_april :
  estimation_due april_10 = true /\
  q_end_of april_10 = mkdate 2024 4 1 /\
  prev_month_end april_10 = mkdate 2024 3 31 /\
  is_month_end (q_end_of april_10) = false.
Proof. repeat split. Qed.

End CalendarFacts.

(* ================================================================== *)
(** * Properties of the arithmetic *)
(* ================================================================== *)

Module Binary64Facts.
Import Binary64.
Local Open Scope Q_scope.

(** ** Rounding to the nearest integer *)

Lemma rne_cases (x : Q) :
  let f := Qfloor x in
  (rne x = f /\ x - inject_Z f <= 1 # 2) \/
  (rne x = (f + 1)%Z /\ 1 # 2 <= x - inject_Z f).
Proof.
  unfold rne; cbv zeta.
  destruct (Qcompare_spec (x - inject_Z (Qfloor x)) (1 # 2)) as [E | L | G].
  - destruct (Z.even (Qfloor x)); [left | right]; split; auto; rewrite E; lra.
  - left; split; auto; lra.
  - right; split; auto; lra.
Qed.

Lemma rne_mono (x y : Q) : x <= y -> (rne x <= rne y)%Z.
Proof.
  intros Hxy.
  pose proof (Qfloor_resp_le _ _ Hxy) as Hf.
  destruct (Z.eq_dec (Qfloor x) (Qfloor y)) as [E | N].
  - unfold rne. rewrite <- E.
    destruct (Qcompare_spec (x - inject_Z (Qfloor x)) (1 # 2)) as [Ex | Lx | Gx];
    destruct (Qcompare_spec (y - inject_Z (Qfloor x)) (1 # 2)) as [Ey | Ly | Gy];
    try destruct (Z.even (Qfloor x)); try lia; exfalso; try rewrite Ex in *; lra.
  - destruct (rne_cases x) as [[-> _] | [-> _]], (rne_cases y) as [[-> _] | [-> _]]; lia.
Qed.

Lemma rne_inject_Z (n : Z) : rne (inject_Z n) = n.
Proof.
  unfold rne. rewrite Qfloor_Z.
  destruct (Qcompare_spec (inject_Z n - inject_Z n) (1 # 2)) as [E | L | G];
    try reflexivity; exfalso; lra.
Qed.

Lemma rne_ge (n : Z) (x : Q) : inject_Z n <= x -> (n <= rne x)%Z.
Proof. intros H. rewrite <- (rne_inject_Z n). now apply rne_mono. Qed.

Lemma rne_le (n : Z) (x : Q) : x <= inject_Z n -> (rne x <= n)%Z.
Proof. intros H. rewrite <- (rne_inject_Z n). now apply rne_mono. Qed.

Lemma inject_Z_pow2_pos (k : Z) : (0 <= k)%Z -> 0 < inject_Z (2 ^ k).
Proof.
  intros Hk. change 0 with (inject_Z 0). rewrite <- Zlt_Qlt.
  apply Z.pow_pos_nonneg; lia.
Qed.

Lemma ulp_shift_nonneg (x : Q) : (0 <= ulp_shift x)%Z.
Proof. unfold ulp_shift. lia. Qed.

Lemma ulp_shift_mono (x y : Q) : x <= y -> (ulp_shift x <= ulp_shift y)%Z.
Proof.
  intros H. unfold ulp_shift.
  pose proof (Z.log2_le_mono _ _ (Qfloor_resp_le _ _ H)). lia.
Qed.

Lemma round_mag_nonneg (x : Q) : 0 <= x -> (0 <= round_mag x)%Z.
Proof.
  intros Hx. unfold round_mag.
  pose proof (ulp_shift_nonneg x) as Hk.
  apply Z.mul_nonneg_nonneg; [| apply Z.pow_nonneg; lia].
  apply (rne_ge 0). apply Qle_shift_div_l; [now apply inject_Z_pow2_pos |].
  change (inject_Z 0) with 0. lra.
Qed.

(** Below its binade's upper end, a magnitude rounds to at most that end. *)
Lemma round_mag_upper (x : Q) :
  0 <= x -> (round_mag x <= 2 ^ (ulp_shift x + 53))%Z.
Proof.
  intros Hx. unfold round_mag.
  pose proof (ulp_shift_nonneg x) as Hk.
  set (k := ulp_shift x) in *.
  rewrite Z.pow_add_r by lia. rewrite (Z.mul_comm (2 ^ k)).
  apply Z.mul_le_mono_nonneg_r; [apply Z.pow_nonneg; lia |].
  apply rne_le. apply Qle_shift_div_r; [now apply inject_Z_pow2_pos |].
  rewrite <- inject_Z_mult, <- Z.pow_add_r by lia.
  assert (HF : (Qfloor x < 2 ^ (53 + k))%Z).
  { assert (H0 : (0 <= Qfloor x)%Z).
    { rewrite <- (Qfloor_Z 0). now apply Qfloor_resp_le. }
    destruct (Z.eq_dec (Qfloor x) 0) as [-> | N].
    - apply Z.pow_pos_nonneg; lia.
    - destruct (Z.log2_spec (Qfloor x)) as [_ Hu]; [lia |].
      eapply Z.lt_le_trans; [exact Hu |].
      apply Z.pow_le_mono_r; [lia |]. subst k. unfold ulp_shift. lia. }
  apply Qlt_le_weak. eapply Qlt_le_trans; [apply Qlt_floor |].
  rewrite <- Zle_Qle. lia.
Qed.

(** A magnitude with a positive shift rounds to at least its binade's lower
    end. *)
Lemma round_mag_lower (x : Q) :
  (0 < ulp_shift x)%Z -> (2 ^ (ulp_shift x + 52) <= round_mag x)%Z.
Proof.
  intros Hk. unfold round_mag.
  set (k := ulp_shift x) in *.
  rewrite Z.pow_add_r by lia. rewrite (Z.mul_comm (2 ^ k)).
  apply Z.mul_le_mono_nonneg_r; [apply Z.pow_nonneg; lia |].
  apply rne_ge. apply Qle_shift_div_l; [apply inject_Z_pow2_pos; lia |].
  rewrite <- inject_Z_mult, <- Z.pow_add_r by lia.
  assert (HF : (2 ^ (52 + k) <= Qfloor x)%Z).
  { assert (E : (Z.log2 (Qfloor x) = k + 52)%Z) by (subst k; unfold ulp_shift in *; lia).
    assert (P : (0 < Qfloor x)%Z).
    { destruct (Z_lt_le_dec 0 (Qfloor x)) as [P | P]; [exact P |].
      rewrite (Z.log2_nonpos _ P) in E. lia. }
    destruct (Z.log2_spec _ P) as [Hl _]. rewrite E in Hl.
    now rewrite Z.add_comm. }
  eapply Qle_trans; [| apply Qfloor_le]. now rewrite <- Zle_Qle.
Qed.

Lemma round_mag_mono (x y : Q) :
  0 <= x -> x <= y -> (round_mag x <= round_mag y)%Z.
Proof.
  intros Hx Hxy.
  pose proof (ulp_shift_mono _ _ Hxy) as Hk.
  pose proof (ulp_shift_nonneg x) as Hkx.
  destruct (Z.eq_dec (ulp_shift x) (ulp_shift y)) as [E | N].
  - unfold round_mag. rewrite <- E.
    apply Z.mul_le_mono_nonneg_r; [apply Z.pow_nonneg; lia |].
    apply rne_mono.
    apply Qmult_le_compat_r; [exact Hxy |].
    apply Qlt_le_weak, Qinv_lt_0_compat. now apply inject_Z_pow2_pos.
  - eapply Z.le_trans; [apply round_mag_upper; exact Hx |].
    eapply Z.le_trans; [| apply round_mag_lower; lia].
    apply Z.pow_le_mono_r; lia.
Qed.

Lemma one_units_pos : (0 < one_units)%Z.
Proof. unfold one_units. apply Z.pow_pos_nonneg; lia. Qed.

Local Opaque one_units overflow_units.

Lemma one_units_Qpos : 0 < inject_Z one_units.
Proof. change 0 with (inject_Z 0). rewrite <- Zlt_Qlt. apply one_units_pos. Qed.

(** *** The order on packed magnitudes *)

Lemma leb_pack_pos (a b : Z) :
  (0 <= a <= b)%Z -> leb (pack false a) (pack false b) = true.
Proof.
  intros H. unfold pack.
  destruct (Z.eqb_spec a 0), (Z.eqb_spec b 0),
    (Z.leb_spec overflow_units a), (Z.leb_spec overflow_units b);
    simpl; try reflexivity; try lia; apply Z.leb_le; lia.
Qed.

Lemma leb_pack_neg (a b : Z) :
  (0 <= b <= a)%Z -> leb (pack true a) (pack true b) = true.
Proof.
  intros H. unfold pack.
  destruct (Z.eqb_spec a 0), (Z.eqb_spec b 0),
    (Z.leb_spec overflow_units a), (Z.leb_spec overflow_units b);
    simpl; try reflexivity; try lia; apply Z.leb_le; lia.
Qed.

Lemma leb_pack_neg_pos (a b : Z) :
  (0 <= a)%Z -> (0 <= b)%Z -> leb (pack true a) (pack false b) = true.
Proof.
  intros Ha Hb. unfold pack.
  destruct (Z.eqb_spec a 0), (Z.eqb_spec b 0),
    (Z.leb_spec overflow_units a), (Z.leb_spec overflow_units b);
    simpl; try reflexivity; try lia; apply Z.leb_le; lia.
Qed.

Lemma leb_pack_neg_zero (a : Z) (z : bool) :
  (0 <= a)%Z -> leb (pack true a) (Zero z) = true.
Proof.
  intros Ha. unfold pack.
  destruct (Z.eqb_spec a 0), (Z.leb_spec overflow_units a);
    simpl; try reflexivity; apply Z.leb_le; lia.
Qed.

Lemma leb_zero_pack_pos (b : Z) (z : bool) :
  (0 <= b)%Z -> leb (Zero z) (pack false b) = true.
Proof.
  intros Hb. unfold pack.
  destruct (Z.eqb_spec b 0), (Z.leb_spec overflow_units b);
    simpl; try reflexivity; apply Z.leb_le; lia.
Qed.

(** Rounding is monotone: the heart of every order property of the
    arithmetic. *)
Lemma round_units_mono (z1 z2 : bool) (x y : Q) :
  x <= y -> leb (round_units z1 x) (round_units z2 y) = true.
Proof.
  intros Hxy. unfold round_units.
  destruct (Qcompare_spec 0 x) as [Ex | Lx | Gx];
  destruct (Qcompare_spec 0 y) as [Ey | Ly | Gy];
    try (exfalso; try rewrite <- Ex in *; try rewrite <- Ey in *; lra).
  - reflexivity.
  - apply leb_zero_pack_pos, round_mag_nonneg; lra.
  - apply leb_pack_pos. split; [apply round_mag_nonneg; lra |].
    apply round_mag_mono; lra.
  - apply leb_pack_neg_zero, round_mag_nonneg; lra.
  - apply leb_pack_neg_pos; apply round_mag_nonneg; lra.
  - apply leb_pack_neg. split; [apply round_mag_nonneg; lra |].
    apply round_mag_mono; lra.
Qed.

Lemma round_units_not_nan (z : bool) (x : Q) : is_nan (round_units z x) = false.
Proof.
  unfold round_units, pack.
  destruct (0 ?= x); try reflexivity;
    repeat match goal with |- context [if ?b then _ else _] => destruct b end;
    reflexivity.
Qed.

Lemma leb_refl_not_nan (x : float) : is_nan x = false -> leb x x = true.
Proof.
  destruct x as [| [] | [] | n]; simpl; try reflexivity; try discriminate.
  intros _. apply Z.leb_refl.
Qed.

Lemma ltb_leb (a b : float) : ltb a b = true -> leb a b = true.
Proof.
  destruct a as [| [] | [] | n], b as [| [] | [] | m]; simpl;
    try reflexivity; try discriminate; intros H; apply Z.leb_le;
    apply Z.ltb_lt in H; lia.
Qed.

(** *** The operations on finite arguments are the rounded exact results *)

Lemma add_finite (a b : float) :
  is_finite a = true -> is_finite b = true ->
  exists z, add a b = round_units z (inject_Z (units a + units b)).
Proof.
  destruct a as [| s | s | n], b as [| t | t | m]; simpl; try discriminate;
    intros _ _.
  - exists (s && t)%bool. reflexivity.
  - exists false. reflexivity.
  - exists false. reflexivity.
  - exists false. reflexivity.
Qed.

Lemma mul_finite (a : float) (m : Z) :
  is_finite a = true ->
  exists z, mul a (Fin m)
            = round_units z (inject_Z (units a * m) / inject_Z one_units).
Proof.
  destruct a as [| s | s | n]; simpl; try discriminate; intros _.
  - exists (xorb s (m <? 0)%Z). reflexivity.
  - eexists. reflexivity.
Qed.

Lemma div_finite (a : float) (m : Z) :
  is_finite a = true ->
  exists z, div a (Fin m)
            = round_units z (inject_Z (units a * one_units) / inject_Z m).
Proof.
  destruct a as [| s | s | n]; simpl; try discriminate; intros _.
  - exists (xorb s (m <? 0)%Z). reflexivity.
  - eexists. reflexivity.
Qed.

Lemma leb_finite (a b : float) :
  is_finite a = true -> is_finite b = true ->
  leb a b = true -> (units a <= units b)%Z.
Proof.
  destruct a as [| s | s | n], b as [| t | t | m]; simpl; try discriminate;
    intros _ _ H; now apply Z.leb_le.
Qed.

(** *** Monotonicity of the operations *)

Lemma add_mono_l (a b c : float) :
  is_finite a = true -> is_finite b = true -> is_nan c = false ->
  leb a b = true -> leb (add a c) (add b c) = true.
Proof.
  intros Ha Hb Hc Hab.
  destruct (is_finite c) eqn:Fc.
  - destruct (add_finite a c Ha Fc) as [z1 ->], (add_finite b c Hb Fc) as [z2 ->].
    apply round_units_mono. rewrite <- Zle_Qle.
    pose proof (leb_finite a b Ha Hb Hab). lia.
  - destruct c as [| t | t | m]; try discriminate.
    destruct a as [| | s | n], b as [| | s' | n']; try discriminate;
      destruct t; reflexivity.
Qed.

Lemma sub_mono_l (a b c : float) :
  is_finite a = true -> is_finite b = true -> is_nan c = false ->
  leb a b = true -> leb (sub a c) (sub b c) = true.
Proof.
  intros Ha Hb Hc Hab. unfold sub. apply add_mono_l; auto.
  destruct c; auto.
Qed.

Lemma mul_pos_not_nan (a c : float) :
  is_nan a = false -> is_positive c = true -> is_nan (mul a c) = false.
Proof.
  destruct c as [| | | m]; try discriminate. intros Ha Hc.
  destruct a as [| s | s | n]; try discriminate; try reflexivity.
  apply round_units_not_nan.
Qed.

Lemma div_pos_not_nan (a c : float) :
  is_nan a = false -> is_positive c = true -> is_nan (div a c) = false.
Proof.
  destruct c as [| | | m]; try discriminate. intros Ha Hc.
  destruct a as [| s | s | n]; try discriminate; try reflexivity.
  apply round_units_not_nan.
Qed.

Lemma rint_not_nan (a : float) : is_nan a = false -> is_nan (rint a) = false.
Proof.
  destruct a as [| s | s | n]; simpl; auto. intros _.
  now destruct (_ =? 0)%Z.
Qed.

(** Comparisons with an infinity on one side. *)
Lemma leb_inf_cases (a b : float) :
  is_nan a = false -> is_nan b = false -> leb a b = true ->
  (is_finite a = true /\ is_finite b = true)
  \/ a = Inf true \/ b = Inf false.
Proof.
  destruct a as [| [] | s | n], b as [| [] | t | m]; simpl; try discriminate;
    auto.
Qed.

Lemma leb_neg_inf (b : float) : is_nan b = false -> leb (Inf true) b = true.
Proof. destruct b as [| [] | |]; simpl; auto; discriminate. Qed.

Lemma leb_pos_inf (a : float) : is_nan a = false -> leb a (Inf false) = true.
Proof. destruct a as [| [] | |]; simpl; auto; discriminate. Qed.

Lemma mul_mono_pos (a b c : float) :
  is_nan a = false -> is_nan b = false -> is_positive c = true ->
  leb a b = true -> leb (mul a c) (mul b c) = true.
Proof.
  intros Ha Hb Hc Hab.
  pose proof (mul_pos_not_nan a c Ha Hc) as Na.
  pose proof (mul_pos_not_nan b c Hb Hc) as Nb.
  destruct c as [| | | m]; try discriminate. simpl in Hc. apply Z.ltb_lt in Hc.
  destruct (leb_inf_cases a b Ha Hb Hab) as [[Fa Fb] | [-> | ->]].
  - destruct (mul_finite a m Fa) as [z1 ->], (mul_finite b m Fb) as [z2 ->].
    apply round_units_mono.
    apply Qmult_le_compat_r;
      [| apply Qlt_le_weak, Qinv_lt_0_compat, one_units_Qpos].
    rewrite <- Zle_Qle. pose proof (leb_finite a b Fa Fb Hab). nia.
  - replace (mul (Inf true) (Fin m)) with (Inf true)
      by (simpl; destruct (Z.ltb_spec m 0); [lia | reflexivity]).
    now apply leb_neg_inf.
  - replace (mul (Inf false) (Fin m)) with (Inf false)
      by (simpl; destruct (Z.ltb_spec m 0); [lia | reflexivity]).
    now apply leb_pos_inf.
Qed.

Lemma div_mono_pos (a b c : float) :
  is_nan a = false -> is_nan b = false -> is_positive c = true ->
  leb a b = true -> leb (div a c) (div b c) = true.
Proof.
  intros Ha Hb Hc Hab.
  pose proof (div_pos_not_nan a c Ha Hc) as Na.
  pose proof (div_pos_not_nan b c Hb Hc) as Nb.
  destruct c as [| | | m]; try discriminate. simpl in Hc. apply Z.ltb_lt in Hc.
  destruct (leb_inf_cases a b Ha Hb Hab) as [[Fa Fb] | [-> | ->]].
  - destruct (div_finite a m Fa) as [z1 ->], (div_finite b m Fb) as [z2 ->].
    apply round_units_mono.
    apply Qmult_le_compat_r.
    + rewrite <- Zle_Qle. pose proof (leb_finite a b Fa Fb Hab).
      pose proof one_units_pos. nia.
    + apply Qlt_le_weak, Qinv_lt_0_compat.
      change 0 with (inject_Z 0). now rewrite <- Zlt_Qlt.
  - replace (div (Inf true) (Fin m)) with (Inf true)
      by (simpl; destruct (Z.ltb_spec m 0); [lia | reflexivity]).
    now apply leb_neg_inf.
  - replace (div (Inf false) (Fin m)) with (Inf false)
      by (simpl; destruct (Z.ltb_spec m 0); [lia | reflexivity]).
    now apply leb_pos_inf.
Qed.

Lemma rne_compat (x y : Q) : x == y -> rne x = rne y.
Proof.
  intros E. apply Z.le_antisymm; apply rne_mono; rewrite E; apply Qle_refl.
Qed.

Lemma units_rint (a : float) :
  is_finite a = true ->
  units (rint a)
  = (rne (inject_Z (units a) / inject_Z one_units) * one_units)%Z.
Proof.
  destruct a as [| | s | n]; try discriminate; intros _; cbn [rint units].
  - rewrite (rne_compat _ (inject_Z 0)); [now rewrite rne_inject_Z |].
    unfold Qdiv. change (inject_Z 0) with 0. ring.
  - destruct (Z.eqb_spec (rne (inject_Z n / inject_Z one_units)) 0) as [E | N].
    + rewrite E. reflexivity.
    + reflexivity.
Qed.

Lemma rint_finite (a : float) : is_finite a = true -> is_finite (rint a) = true.
Proof.
  destruct a as [| | s | n]; simpl; auto. now destruct (_ =? 0)%Z.
Qed.

Lemma leb_of_units (a b : float) :
  is_finite a = true -> is_finite b = true ->
  (units a <= units b)%Z -> leb a b = true.
Proof.
  destruct a as [| s | s | n], b as [| t | t | m]; simpl; try discriminate;
    intros _ _ H; now apply Z.leb_le.
Qed.

Lemma rint_mono (a b : float) :
  is_nan a = false -> is_nan b = false ->
  leb a b = true -> leb (rint a) (rint b) = true.
Proof.
  intros Ha Hb Hab.
  destruct (leb_inf_cases a b Ha Hb Hab) as [[Fa Fb] | [-> | ->]].
  - apply leb_of_units; try now apply rint_finite.
    rewrite !units_rint by assumption.
    apply Z.mul_le_mono_nonneg_r; [pose proof one_units_pos; lia |].
    apply rne_mono.
    apply Qmult_le_compat_r;
      [| apply Qlt_le_weak, Qinv_lt_0_compat, one_units_Qpos].
    rewrite <- Zle_Qle. now apply leb_finite.
  - apply leb_neg_inf. now apply rint_not_nan.
  - apply leb_pos_inf. now apply rint_not_nan.
Qed.

Lemma of_Z_100_positive : is_positive (of_Z 100) = true.
Proof. vm_compute. reflexivity. Qed.

Lemma of_Z_1000000_positive : is_positive (of_Z 1000000) = true.
Proof. vm_compute. reflexivity. Qed.

Lemma round2_not_nan (a : float) : is_nan a = false -> is_nan (round2 a) = false.
Proof.
  intros Ha. unfold round2.
  apply div_pos_not_nan; [| apply of_Z_100_positive].
  apply rint_not_nan, mul_pos_not_nan; [exact Ha | apply of_Z_100_positive].
Qed.

(** [round(x, 2)] never reverses the order of two numbers. *)
Lemma round2_mono (a b : float) :
  is_nan a = false -> is_nan b = false ->
  leb a b = true -> leb (round2 a) (round2 b) = true.
Proof.
  intros Ha Hb Hab. unfold round2.
  pose proof of_Z_100_positive as P.
  apply div_mono_pos; auto using rint_not_nan, mul_pos_not_nan.
  apply rint_mono; auto using mul_pos_not_nan.
  now apply mul_mono_pos.
Qed.

Lemma nonneg_not_nan (x : float) : nonneg x = true -> is_nan x = false.
Proof. now destruct x. Qed.

Lemma positive_nonneg (x : float) : is_positive x = true -> nonneg x = true.
Proof. now destruct x. Qed.

Lemma round_units_nonneg (x : Q) :
  0 < x -> nonneg (round_units false x) = true.
Proof.
  intros Hx. unfold round_units.
  destruct (Qcompare_spec 0 x) as [E | L | G]; try (exfalso; try rewrite <- E in *; lra).
  pose proof (round_mag_nonneg x (Qlt_le_weak _ _ Hx)).
  unfold pack.
  destruct (Z.eqb_spec (round_mag x) 0); [reflexivity |].
  destruct (Z.leb_spec overflow_units (round_mag x)); [reflexivity |].
  simpl. apply Z.ltb_lt. lia.
Qed.

Lemma mul_nonneg_pos (a c : float) :
  nonneg a = true -> is_positive c = true -> nonneg (mul a c) = true.
Proof.
  destruct c as [| | | m]; try discriminate. simpl. intros Ha Hc.
  apply Z.ltb_lt in Hc.
  assert (Em : (m <? 0)%Z = false) by (apply Z.ltb_ge; lia).
  destruct a as [| s | s | n]; try discriminate; simpl in *.
  - rewrite Em. now destruct s.
  - reflexivity.
  - apply Z.ltb_lt in Ha.
    assert (En : (n <? 0)%Z = false) by (apply Z.ltb_ge; lia).
    rewrite En, Em. simpl. apply round_units_nonneg.
    apply Qlt_shift_div_l; [apply one_units_Qpos |].
    rewrite Qmult_0_l. change 0 with (inject_Z 0). rewrite <- Zlt_Qlt. nia.
Qed.

Lemma div_nonneg_pos (a c : float) :
  nonneg a = true -> is_positive c = true -> nonneg (div a c) = true.
Proof.
  destruct c as [| | | m]; try discriminate. simpl. intros Ha Hc.
  apply Z.ltb_lt in Hc.
  assert (Em : (m <? 0)%Z = false) by (apply Z.ltb_ge; lia).
  destruct a as [| s | s | n]; try discriminate; simpl in *.
  - rewrite Em. now destruct s.
  - reflexivity.
  - apply Z.ltb_lt in Ha.
    assert (En : (n <? 0)%Z = false) by (apply Z.ltb_ge; lia).
    rewrite En, Em. simpl. apply round_units_nonneg.
    apply Qlt_shift_div_l; [change 0 with (inject_Z 0); now rewrite <- Zlt_Qlt |].
    rewrite Qmult_0_l. change 0 with (inject_Z 0). rewrite <- Zlt_Qlt.
    pose proof one_units_pos. nia.
Qed.

End Binary64Facts.

(* ================================================================== *)
(** * Properties of the ledgers *)
(* ================================================================== *)

Module FrameFacts.
Import Calendar Frame.

Lemma key_eqb_eq (a b : date * string) : key_eqb a b = true <-> a = b.
Proof.
  destruct a as [d c], b as [d' c']; unfold key_eqb; simpl.
  rewrite andb_true_iff, CalendarFacts.date_eqb_eq, String.eqb_eq. split.
  - intros [-> ->]. reflexivity.
  - intros H. injection H as -> ->. auto.
Qed.

Section DropDuplicates.
Context {A K : Type} (key : A -> K) (key_eqb : K -> K -> bool).
Hypothesis key_eqb_eq : forall a b, key_eqb a b = true <-> a = b.

Local Abbreviation dd_from := (drop_duplicates_from key key_eqb).
Local Abbreviation dd := (drop_duplicates key key_eqb).

Lemma seen_In (k : K) (seen : list K) :
  existsb (key_eqb k) seen = true <-> In k seen.
Proof.
  rewrite existsb_exists. split.
  - intros [k' [Hin E]]. apply key_eqb_eq in E. now subst.
  - intros Hin. exists k. split; [exact Hin | now apply key_eqb_eq].
Qed.

Lemma seen_equiv (k : K) (seen seen' : list K) :
  (forall x, In x seen <-> In x seen') ->
  existsb (key_eqb k) seen = existsb (key_eqb k) seen'.
Proof.
  intros H. apply eq_true_iff_eq. rewrite !seen_In. apply H.
Qed.

(** Only the set of keys met so far matters. *)
Lemma dd_from_equiv (rows : list A) : forall seen seen',
  (forall x, In x seen <-> In x seen') ->
  dd_from seen rows = dd_from seen' rows.
Proof.
  induction rows as [| r rows IH]; intros seen seen' H; simpl; [reflexivity |].
  rewrite (seen_equiv _ _ _ H).
  destruct (existsb _ seen'); [now apply IH |].
  f_equal. apply IH. intros x. simpl. now rewrite H.
Qed.

Lemma dd_from_In (rows : list A) : forall seen r,
  In r (dd_from seen rows) -> In r rows /\ ~ In (key r) seen.
Proof.
  induction rows as [| r0 rows IH]; intros seen r; simpl; [tauto |].
  destruct (existsb _ seen) eqn:E.
  - intros H. apply IH in H. tauto.
  - intros [<- | H].
    + split; [now left |]. rewrite <- seen_In. congruence.
    + apply IH in H. simpl in H. tauto.
Qed.

Lemma dd_from_unique (rows : list A) : forall seen,
  unique_keys key (dd_from seen rows).
Proof.
  unfold unique_keys.
  induction rows as [| r rows IH]; intros seen; simpl; [constructor |].
  destruct (existsb _ seen); [apply IH |].
  simpl. constructor; [| apply IH].
  rewrite in_map_iff. intros [r' [E Hin]].
  apply dd_from_In in Hin. destruct Hin as [_ Hn]. apply Hn. rewrite E. now left.
Qed.

(** Every key of the input is a key of the output or was met before. *)
Lemma dd_from_covers (rows : list A) : forall seen r,
  In r rows -> In (key r) (map key (dd_from seen rows)) \/ In (key r) seen.
Proof.
  induction rows as [| r0 rows IH]; intros seen r; simpl; [tauto |].
  intros [-> | Hin].
  - destruct (existsb _ seen) eqn:E.
    + right. now apply seen_In.
    + left. now left.
  - destruct (existsb _ seen) eqn:E.
    + now apply IH.
    + destruct (IH (key r0 :: seen) r Hin) as [H | [H | H]].
      * left. now right.
      * left. left. exact H.
      * now right.
Qed.

Lemma dd_from_app (l1 l2 : list A) : forall seen,
  dd_from seen (l1 ++ l2)
  = dd_from seen l1 ++ dd_from (rev (map key (dd_from seen l1)) ++ seen) l2.
Proof.
  induction l1 as [| r l1 IH]; intros seen; simpl; [reflexivity |].
  destruct (existsb _ seen); [apply IH |].
  simpl. f_equal. rewrite IH. f_equal. now rewrite <- app_assoc.
Qed.

Lemma dd_from_all_seen (rows : list A) (seen : list K) :
  (forall r, In r rows -> In (key r) seen) -> dd_from seen rows = [].
Proof.
  induction rows as [| r rows IH]; intros H; simpl; [reflexivity |].
  assert (E : existsb (key_eqb (key r)) seen = true)
    by (apply seen_In, H; now left).
  rewrite E. apply IH. intros r' Hr'. apply H. now right.
Qed.

Lemma dd_from_fixed (rows : list A) : forall seen,
  dd_from seen (dd_from seen rows) = dd_from seen rows.
Proof.
  induction rows as [| r rows IH]; intros seen; simpl; [reflexivity |].
  destruct (existsb _ seen) eqn:E; [apply IH |].
  simpl. rewrite E. f_equal. apply IH.
Qed.

(** Rows that are already unique are left as they are. *)
Lemma dd_from_unique_id (rows : list A) : forall seen,
  unique_keys key rows -> (forall r, In r rows -> ~ In (key r) seen) ->
  dd_from seen rows = rows.
Proof.
  unfold unique_keys.
  induction rows as [| r rows IH]; intros seen U H; simpl; [reflexivity |].
  inversion U as [| k ks Hk U']; subst.
  destruct (existsb _ seen) eqn:E.
  - apply seen_In in E. exfalso. apply (H r); [now left | exact E].
  - f_equal. apply IH; [exact U' |].
    intros r' Hr' [E' | Hin].
    + apply Hk. rewrite E'. now apply in_map.
    + apply (H r'); [now right | exact Hin].
Qed.

(** Merging a batch a second time changes nothing. *)
Lemma merge_twice (existing batch : list A) :
  dd (concat (dd (concat existing batch)) batch) = dd (concat existing batch).
Proof.
  unfold drop_duplicates, concat.
  rewrite dd_from_app, dd_from_fixed, app_nil_r.
  rewrite (dd_from_all_seen batch); [apply app_nil_r |].
  intros r Hr. rewrite <- in_rev.
  destruct (dd_from_covers (existing ++ batch) [] r) as [H | []]; [| exact H].
  apply in_or_app. now right.
Qed.

Lemma merge_unique (existing batch : list A) :
  unique_keys key (dd (concat existing batch)).
Proof. apply dd_from_unique. Qed.

(** The rows kept from the existing frame come first, unchanged, when the
    existing frame had unique keys: a new row never replaces one. *)
Lemma merge_keeps_existing (existing batch : list A) :
  unique_keys key existing ->
  exists added,
    dd (concat existing batch) = existing ++ added /\
    (forall r, In r added ->
       In r batch /\ ~ In (key r) (map key existing)).
Proof.
  intros U. unfold drop_duplicates, concat. rewrite dd_from_app.
  rewrite (dd_from_unique_id existing []); [| exact U | intros r _ []].
  eexists. split; [reflexivity |].
  intros r Hr. apply dd_from_In in Hr. destruct Hr as [Hb Hn].
  split; [exact Hb |]. intros Hin. apply Hn.
  apply in_or_app. left. now rewrite <- in_rev.
Qed.

End DropDuplicates.

(** ** The two ledgers of [main] *)

Lemma store_prices_twice (existing batch : list price_row) :
  Tracker.store_prices (Some (Tracker.store_prices (Some existing) batch)) batch
  = Tracker.store_prices (Some existing) batch.
Proof. apply merge_twice, key_eqb_eq. Qed.

Lemma store_flows_twice (existing batch : list flow_row) :
  Tracker.store_flows (Some (Tracker.store_flows (Some existing) batch)) batch
  = Tracker.store_flows (Some existing) batch.
Proof. apply merge_twice, key_eqb_eq. Qed.

(** Once the file exists no two of its rows share a key after an update,
    whatever the file and the batch held. *)
Lemma store_prices_unique (existing batch : list price_row) :
  unique_keys price_key (Tracker.store_prices (Some existing) batch).
Proof. apply merge_unique, key_eqb_eq. Qed.

Lemma store_flows_unique (existing batch : list flow_row) :
  unique_keys flow_key (Tracker.store_flows (Some existing) batch).
Proof. apply merge_unique, key_eqb_eq. Qed.

(** On a collision the row of the file is the one kept. *)
Lemma store_prices_keeps_existing (existing batch : list price_row) :
  unique_keys price_key existing ->
  exists added,
    Tracker.store_prices (Some existing) batch = existing ++ added /\
    (forall r, In r added ->
       In r batch /\ ~ In (price_key r) (map price_key existing)).
Proof. apply merge_keeps_existing, key_eqb_eq. Qed.

Lemma store_flows_keeps_existing (existing batch : list flow_row) :
  unique_keys flow_key existing ->
  exists added,
    Tracker.store_flows (Some existing) batch = existing ++ added /\
    (forall r, In r added ->
       In r batch /\ ~ In (flow_key r) (map flow_key existing)).
Proof. apply merge_keeps_existing, key_eqb_eq. Qed.

(** C7.  On a first run, with no [prices.csv] yet, a batch that holds two
    observations of one fund on one day is written as it is; merging the
    same batch again leaves one of the two.  The same happens to
    [quarterly_flows.csv]. *)
Theorem first_merge_not_idempotent :
  let once := Tracker.store_prices None Scenarios.twice_priced in
  let twice := Tracker.store_prices (Some once) Scenarios.twice_priced in
  List.length once = 2%nat /\ List.length twice = 1%nat /\
  let once' := Tracker.store_flows None Scenarios.twice_solved in
  let twice' := Tracker.store_flows (Some once') Scenarios.twice_solved in
  List.length once' = 2%nat /\ List.length twice' = 1%nat.
Proof. vm_compute. auto. Qed.

(** C8.  On a first run, with no [prices.csv] yet, the batch is written
    without [drop_duplicates]: two rows of the file share the key
    (10 April 2024, LIFE01).  The same happens to [quarterly_flows.csv]
    with a code listed under both groups. *)
Theorem first_write_keeps_duplicate_keys :
  Tracker.store_prices None Scenarios.twice_priced = Scenarios.twice_priced /\
  ~ unique_keys price_key (Tracker.store_prices None Scenarios.twice_priced) /\
  Tracker.store_flows None Scenarios.twice_solved = Scenarios.twice_solved /\
  ~ unique_keys flow_key (Tracker.store_flows None Scenarios.twice_solved).
Proof.
  repeat split; intros U; inversion U as [| k ks Hk _]; subst;
    apply Hk; now left.
Qed.

End FrameFacts.

(* ================================================================== *)
(** * Properties of the tracker *)
(* ================================================================== *)

Module TrackerFacts.
Import Calendar Frame Tracker Scenarios.
Local Open Scope string_scope.
Local Open Scope list_scope.

(** ** One fetch *)

Section Script.
Variable internet : nat -> string -> response.

Local Abbreviation fetched_at := (Tracker.fetched_at internet).
Local Abbreviation get_month_end_size := (Tracker.get_month_end_size internet).
Local Abbreviation both_fetches := (Tracker.both_fetches internet).
Local Abbreviation backsolve_loop := (Tracker.backsolve_loop internet).
Local Abbreviation backsolve_flows := (Tracker.backsolve_flows internet).
Local Abbreviation good_fund := (Tracker.good_fund internet).
Local Abbreviation fetch_fails := (Tracker.fetch_fails internet).

(** One call makes one request, for the URL of the code alone; it returns
    or raises what the answer holds, and prints at most the staleness
    warning. *)
Lemma get_month_end_size_run (code : string) (as_of : date) (w : world) :
  exists warn,
    get_month_end_size code as_of w
    = (fetched_at (List.length (requests w)) code, after_fetch w code warn)
    /\ (warn = [] \/ warn = [stale_warning code as_of]).
Proof.
  unfold Tracker.get_month_end_size, Tracker.fetched_at, after_fetch,
    document_size, bind, requests_get, raise_for_status, extract_text,
    float_of_str.
  destruct (internet (List.length (requests w)) (FACTSHEET_PDF code))
    as [reason | [reason |] [pages |]];
    cbn -[re_search_fund_size contains stale_warning strftime_d_B_Y
          String.concat read_decimal Binary64.mul Binary64.of_Z
          Binary64.of_decimal];
    try (exists []; rewrite app_nil_r; split; [reflexivity | now left]).
  destruct (contains _ _);
    cbn -[re_search_fund_size contains stale_warning strftime_d_B_Y
          String.concat read_decimal Binary64.mul Binary64.of_Z
          Binary64.of_decimal].
  - exists []. rewrite app_nil_r. split; [| now left].
    destruct (re_search_fund_size _) as [[num unit] |]; [| reflexivity].
    destruct (read_decimal _ _ _ _) as [[m k] |]; reflexivity.
  - eexists. split; [| right; reflexivity].
    destruct (re_search_fund_size _) as [[num unit] |]; [| reflexivity].
    destruct (read_decimal _ _ _ _) as [[m k] |]; reflexivity.
Qed.

Lemma after_fetch_time (w : world) (code : string) (warn : list string) :
  List.length (requests (after_fetch w code warn))
  = S (List.length (requests w)).
Proof. simpl. rewrite length_app. simpl. lia. Qed.

Lemma iloc0_price_at (price_df : list price_row) (code : string) (d : date)
    (w : world) :
  iloc0_price_pence (loc_code_date price_df code d) w
  = match price_at price_df code d with
    | Some p => (Return p, w)
    | None =>
        (Raise (IndexError "single positional indexer is out-of-bounds"), w)
    end.
Proof. unfold price_at. now destruct (loc_code_date price_df code d). Qed.

(** ** One turn of the loop *)

Lemma grows_trans (w1 w2 w3 : world) (u1 u2 l1 l2 : list string) :
  grows w1 w2 u1 l1 -> grows w2 w3 u2 l2 -> grows w1 w3 (u1 ++ u2) (l1 ++ l2).
Proof.
  unfold grows. intros (R1 & S1 & O1) (R2 & S2 & O2).
  rewrite R2, R1, S2, S1, O2, O1, !app_assoc. auto.
Qed.

(** The try block: the second fetch is made only when the first returns. *)
Lemma both_fetches_run (ms me : date) (code : string) (w : world) :
  let t := List.length (requests w) in
  let url := FACTSHEET_PDF code in
  match fetched_at t code with
  | Raise e =>
      exists w', both_fetches ms me code w = (Raise e, w')
                 /\ exists lines, grows w w' [url] lines
  | Return s =>
      match fetched_at (S t) code with
      | Raise e =>
          exists w', both_fetches ms me code w = (Raise e, w')
                     /\ exists lines, grows w w' [url; url] lines
      | Return e =>
          exists w', both_fetches ms me code w = (Return (s, e), w')
                     /\ exists lines, grows w w' [url; url] lines
      end
  end.
Proof.
  cbv zeta. unfold Tracker.both_fetches, bind.
  destruct (get_month_end_size_run code ms w) as [warn1 [E1 _]].
  rewrite E1.
  destruct (fetched_at (List.length (requests w)) code) as [s | e].
  - destruct (get_month_end_size_run code me (after_fetch w code warn1))
      as [warn2 [E2 _]].
    rewrite E2, after_fetch_time.
    destruct (fetched_at (S (List.length (requests w))) code) as [s' | e'];
      eexists; (split; [reflexivity |]); exists (warn1 ++ warn2);
      unfold grows; simpl; rewrite <- !app_assoc; auto.
  - eexists. split; [reflexivity |]. exists warn1. unfold grows. simpl. auto.
Qed.

Lemma backsolve_loop_cons (ms me : date) (code : string) (rest : list string)
    (price_df : list price_row) (flows : list flow_row) :
  backsolve_loop ms me (code :: rest) price_df flows
  = try_except (both_fetches ms me code)
      (fun e =>
         print_err (code ++ ": " ++ str_exn e)%string ;;;
         backsolve_loop ms me rest price_df flows)
      (fun '(size_start, size_end) =>
         p_start <- iloc0_price_pence (loc_code_date price_df code ms) ;;
         p_end <- iloc0_price_pence (loc_code_date price_df code me) ;;
         backsolve_loop ms me rest price_df
           (flows ++ [flow_record me code size_start size_end p_start p_end])).
Proof. reflexivity. Qed.

(** A fund whose fetches and price lookups succeed: its record is appended
    and the loop goes on. *)
Lemma loop_step_ok (ms me : date) (code : string) (rest : list string)
    (price_df : list price_row) (flows : list flow_row) (w : world)
    (s e ps pe : Binary64.float) :
  fetched_at (List.length (requests w)) code = Return s ->
  fetched_at (S (List.length (requests w))) code = Return e ->
  price_at price_df code ms = Some ps ->
  price_at price_df code me = Some pe ->
  exists w' lines,
    grows w w' [FACTSHEET_PDF code; FACTSHEET_PDF code] lines /\
    backsolve_loop ms me (code :: rest) price_df flows w
    = backsolve_loop ms me rest price_df
        (flows ++ [flow_record me code s e ps pe]) w'.
Proof.
  intros Hs He Hps Hpe.
  pose proof (both_fetches_run ms me code w) as B. cbv zeta in B.
  rewrite Hs, He in B. destruct B as (w' & E & lines & G).
  exists w', lines. split; [exact G |].
  rewrite backsolve_loop_cons. unfold try_except. rewrite E.
  unfold bind. rewrite iloc0_price_at, Hps. cbn beta iota.
  rewrite iloc0_price_at, Hpe. reflexivity.
Qed.

(** A fund one of whose fetches fails: a line with its code and the reason
    goes to stderr, and the loop goes on with the list as it was. *)
Lemma loop_step_fail (ms me : date) (code : string) (rest : list string)
    (price_df : list price_row) (flows : list flow_row) (w : world) (e : exn) :
  fetch_fails (List.length (requests w)) code e ->
  exists w' urls lines,
    grows w w' urls (lines ++ [(code ++ ": " ++ str_exn e)%string]) /\
    backsolve_loop ms me (code :: rest) price_df flows w
    = backsolve_loop ms me rest price_df flows w'.
Proof.
  intros F.
  pose proof (both_fetches_run ms me code w) as B. cbv zeta in B.
  destruct F as [F | (v & F1 & F2)].
  - rewrite F in B. destruct B as (w1 & E & lines & (R & S & O)).
    exists (mkworld (requests w1)
              (stderr w1 ++ [(code ++ ": " ++ str_exn e)%string]) (stdout w1)),
      [FACTSHEET_PDF code], lines.
    split.
    + unfold grows. simpl. rewrite R, S, O, app_assoc. auto.
    + rewrite backsolve_loop_cons. unfold try_except. rewrite E.
      unfold bind, print_err. reflexivity.
  - rewrite F1, F2 in B. destruct B as (w1 & E & lines & (R & S & O)).
    exists (mkworld (requests w1)
              (stderr w1 ++ [(code ++ ": " ++ str_exn e)%string]) (stdout w1)),
      [FACTSHEET_PDF code; FACTSHEET_PDF code], lines.
    split.
    + unfold grows. simpl. rewrite R, S, O, app_assoc. auto.
    + rewrite backsolve_loop_cons. unfold try_except. rewrite E.
      unfold bind, print_err. reflexivity.
Qed.

(** A fund whose fetches succeed and one of whose prices is missing: the
    [IndexError] of [.iloc[0]] leaves the loop, and the list built so far
    with it. *)
Lemma loop_step_gap (ms me : date) (code : string) (rest : list string)
    (price_df : list price_row) (flows : list flow_row) (w : world)
    (s e : Binary64.float) :
  fetched_at (List.length (requests w)) code = Return s ->
  fetched_at (S (List.length (requests w))) code = Return e ->
  price_at price_df code ms = None \/ price_at price_df code me = None ->
  exists w',
    backsolve_loop ms me (code :: rest) price_df flows w
    = (Raise (IndexError "single positional indexer is out-of-bounds"), w').
Proof.
  intros Hs He Hp.
  pose proof (both_fetches_run ms me code w) as B. cbv zeta in B.
  rewrite Hs, He in B. destruct B as (w' & E & _).
  exists w'. rewrite backsolve_loop_cons. unfold try_except. rewrite E.
  unfold bind. rewrite iloc0_price_at.
  destruct (price_at price_df code ms) as [ps |]; [| reflexivity].
  cbn beta iota. rewrite iloc0_price_at.
  destruct Hp as [Hp | Hp]; [discriminate |]. now rewrite Hp.
Qed.

(** ** The whole loop *)

Lemma grows_time (w w' : world) (urls lines : list string) :
  grows w w' urls lines ->
  List.length (requests w')
  = (List.length (requests w) + List.length urls)%nat.
Proof. intros (R & _ & _). now rewrite R, length_app. Qed.

(** Funds that all succeed at the head of the list: one record each, in
    order, two requests each, and the loop goes on with the rest. *)
Lemma loop_good_prefix (ms me : date) (price_df : list price_row)
    (pre : list string) :
  Forall (good_fund ms me price_df) pre ->
  forall rest flows w,
  exists rows w' urls lines,
    backsolve_loop ms me (pre ++ rest) price_df flows w
    = backsolve_loop ms me rest price_df (flows ++ rows) w' /\
    map fl_code rows = pre /\
    grows w w' urls lines /\
    List.length urls = (2 * List.length pre)%nat.
Proof.
  induction 1 as [| code codes [Hf [Hps Hpe]] _ IH]; intros rest flows w.
  - exists [], w, [], []. simpl. unfold grows. rewrite !app_nil_r.
    repeat split; reflexivity.
  - destruct (Hf (List.length (requests w))) as [s Hs].
    destruct (Hf (S (List.length (requests w)))) as [e He].
    destruct (price_at price_df code ms) as [ps |] eqn:Eps; [| congruence].
    destruct (price_at price_df code me) as [pe |] eqn:Epe; [| congruence].
    destruct (loop_step_ok ms me code (codes ++ rest) price_df flows w
                s e ps pe Hs He Eps Epe) as (w1 & lines1 & G1 & E1).
    destruct (IH rest (flows ++ [flow_record me code s e ps pe]) w1)
      as (rows & w' & urls & lines & E & Hm & G & L).
    exists (flow_record me code s e ps pe :: rows), w',
      ([FACTSHEET_PDF code; FACTSHEET_PDF code] ++ urls), (lines1 ++ lines).
    repeat split.
    + simpl app at 1. rewrite E1, E. now rewrite <- app_assoc.
    + simpl. now rewrite Hm.
    + apply (grows_trans _ _ _ _ _ _ _ G1 G).
    + apply (grows_trans _ _ _ _ _ _ _ G1 G).
    + apply (grows_trans _ _ _ _ _ _ _ G1 G).
    + rewrite length_app, L. simpl. lia.
Qed.

Lemma good_fund_not_failing (ms me : date) (price_df : list price_row)
    (code : string) (t : nat) (e : exn) :
  good_fund ms me price_df code -> ~ fetch_fails t code e.
Proof.
  intros [Hf _] [F | (v & _ & F)].
  - destruct (Hf t) as [v Hv]. congruence.
  - destruct (Hf (S t)) as [v' Hv]. congruence.
Qed.

(** C4.  The size [get_month_end_size] returns, or the exception it raises,
    is the same for any two dates asked for whenever the two requests find
    the same document: each call requests the one URL built from the code,
    and the date decides nothing but whether the staleness warning is added
    to stderr. *)
Theorem size_ignores_as_of (code : string) (d1 d2 : date) (w1 w2 : world) :
  internet (List.length (requests w1)) (FACTSHEET_PDF code)
  = internet (List.length (requests w2)) (FACTSHEET_PDF code) ->
  let r1 := get_month_end_size code d1 w1 in
  let r2 := get_month_end_size code d2 w2 in
  fst r1 = fst r2 /\
  requests (snd r1) = requests w1 ++ [FACTSHEET_PDF code] /\
  requests (snd r2) = requests w2 ++ [FACTSHEET_PDF code] /\
  (stderr (snd r1) = stderr w1 \/
   stderr (snd r1) = stderr w1 ++ [stale_warning code d1]) /\
  (stderr (snd r2) = stderr w2 \/
   stderr (snd r2) = stderr w2 ++ [stale_warning code d2]) /\
  stdout (snd r1) = stdout w1 /\ stdout (snd r2) = stdout w2.
Proof.
  intros Hdoc. cbv zeta.
  destruct (get_month_end_size_run code d1 w1) as [warn1 [E1 W1]].
  destruct (get_month_end_size_run code d2 w2) as [warn2 [E2 W2]].
  rewrite E1, E2. unfold Tracker.fetched_at. rewrite Hdoc. simpl.
  repeat split.
  - destruct W1 as [-> | ->]; [left; apply app_nil_r | now right].
  - destruct W2 as [-> | ->]; [left; apply app_nil_r | now right].
Qed.

(** What the loop returns begins with the list it was started with. *)
Lemma loop_return_extends (ms me : date) (price_df : list price_row)
    (codes : list string) :
  forall flows w out w',
    backsolve_loop ms me codes price_df flows w = (Return out, w') ->
    exists more, out = flows ++ more.
Proof.
  induction codes as [| code codes IH]; intros flows w out w' E.
  - simpl in E. injection E as <- _. exists []. now rewrite app_nil_r.
  - rewrite backsolve_loop_cons in E. unfold try_except in E.
    destruct (both_fetches ms me code w) as [[[s e] | ex] w1].
    + unfold bind in E. rewrite iloc0_price_at in E.
      destruct (price_at price_df code ms) as [ps |]; [| discriminate].
      cbn beta iota in E. rewrite iloc0_price_at in E.
      destruct (price_at price_df code me) as [pe |]; [| discriminate].
      apply IH in E. destruct E as [more ->].
      exists (flow_record me code s e ps pe :: more).
      now rewrite <- app_assoc.
    + unfold bind, print_err in E. now apply IH in E.
Qed.

(** C5, as amended.  The loop makes no check on the sign of what it
    fetched: for a fund whose two fetches return sizes and whose two exact
    date lookups find prices, whatever these four numbers are, the record
    with the rounded back-solved flow is appended and the loop goes on with
    the next fund; the record is in whatever the loop returns. *)
Theorem record_whatever_the_sign (ms me : date) (code : string)
    (rest : list string) (price_df : list price_row) (flows : list flow_row)
    (w : world) (s e ps pe : Binary64.float) :
  fetched_at (List.length (requests w)) code = Return s ->
  fetched_at (S (List.length (requests w))) code = Return e ->
  price_at price_df code ms = Some ps ->
  price_at price_df code me = Some pe ->
  let record :=
    mkflow me code
      (Binary64.round2
         (Binary64.sub e
            (Binary64.div
               (Binary64.mul
                  (Binary64.div (Binary64.mul s (Binary64.of_Z 1000000)) ps)
                  pe)
               (Binary64.of_Z 1000000)))) in
  (exists w',
     backsolve_loop ms me (code :: rest) price_df flows w
     = backsolve_loop ms me rest price_df (flows ++ [record]) w') /\
  (forall out w',
     backsolve_loop ms me (code :: rest) price_df flows w = (Return out, w') ->
     In record out).
Proof.
  intros Hs He Hps Hpe record.
  destruct (loop_step_ok ms me code rest price_df flows w s e ps pe
              Hs He Hps Hpe) as (w1 & _ & _ & E).
  split; [exists w1; exact E |].
  intros out w' R. rewrite E in R.
  apply loop_return_extends in R. destruct R as [more ->].
  apply in_or_app. left. apply in_or_app. right. now left.
Qed.

(** C6.  When every fund of the batch but one has a factsheet that yields
    a size and has its two prices, and one of the two fetches of the
    remaining fund fails, the back-solver returns: one record for each of
    the other funds, in order, none for the failed fund, and on stderr the
    line made of the fund code and the reason. *)
Theorem one_failed_fetch (month_end : date) (pre post : list string)
    (bad : string) (price_df : list price_row) (w : world) (e : exn) :
  Forall (good_fund (quarter_start month_end) month_end price_df)
         (pre ++ post) ->
  fetch_fails (List.length (requests w) + 2 * List.length pre) bad e ->
  exists rows w' urls lines,
    backsolve_flows month_end (pre ++ bad :: post) price_df w
    = (Return rows, w') /\
    List.length rows = (List.length (pre ++ bad :: post) - 1)%nat /\
    map fl_code rows = pre ++ post /\
    ~ In bad (map fl_code rows) /\
    grows w w' urls lines /\
    In (bad ++ ": " ++ str_exn e)%string lines.
Proof.
  intros Hgood Hbad.
  pose proof Hgood as Hg. apply Forall_app in Hg. destruct Hg as [Hpre Hpost].
  unfold Tracker.backsolve_flows.
  set (ms := quarter_start month_end) in *.
  destruct (loop_good_prefix ms month_end price_df pre Hpre (bad :: post) [] w)
    as (rows1 & w1 & urls1 & lines1 & E1 & M1 & G1 & L1).
  assert (T1 : List.length (requests w1)
               = (List.length (requests w) + 2 * List.length pre)%nat)
    by (rewrite (grows_time _ _ _ _ G1), L1; reflexivity).
  rewrite <- T1 in Hbad.
  destruct (loop_step_fail ms month_end bad post price_df
              ([] ++ rows1) w1 e Hbad) as (w2 & urls2 & lines2 & G2 & E2).
  destruct (loop_good_prefix ms month_end price_df post Hpost [] 
              ([] ++ rows1) w2)
    as (rows2 & w3 & urls3 & lines3 & E3 & M3 & G3 & L3).
  rewrite app_nil_r in E3. simpl in E3.
  exists (rows1 ++ rows2), w3, ((urls1 ++ urls2) ++ urls3),
    ((lines1 ++ lines2 ++ [(bad ++ ": " ++ str_exn e)%string]) ++ lines3).
  assert (M : map fl_code (rows1 ++ rows2) = pre ++ post)
    by (now rewrite map_app, M1, M3).
  repeat split.
  - rewrite E1, E2. simpl app. rewrite E3. reflexivity.
  - rewrite <- (length_map fl_code), M, !length_app. simpl. lia.
  - exact M.
  - rewrite M. intros Hin.
    rewrite Forall_forall in Hgood.
    apply (good_fund_not_failing _ _ _ _ _ _ (Hgood bad Hin) Hbad).
  - apply (grows_trans _ _ _ _ _ _ _ (grows_trans _ _ _ _ _ _ _ G1 G2) G3).
  - apply (grows_trans _ _ _ _ _ _ _ (grows_trans _ _ _ _ _ _ _ G1 G2) G3).
  - apply (grows_trans _ _ _ _ _ _ _ (grows_trans _ _ _ _ _ _ _ G1 G2) G3).
  - apply in_or_app. left. apply in_or_app. right. apply in_or_app. right.
    now left.
Qed.

End Script.

(** ** The arithmetic of one record *)

Import Binary64 Binary64Facts.

(** The arithmetic agrees with the processor's on the numbers of the
    worked scenario, on an inexact division, on a decimal that is not a
    double, on a subnormal product and on a division by zero. *)
Example hardware_scenario :
  to_prim (flow (f 50) (f 58) (f 100) (f 110))
  = PrimFloat.sub (prim_of_Z 58)
      (PrimFloat.div
         (PrimFloat.mul
            (PrimFloat.div (PrimFloat.mul (prim_of_Z 50) (prim_of_Z 1000000))
               (prim_of_Z 100))
            (prim_of_Z 110))
         (prim_of_Z 1000000)).
Proof. vm_compute. reflexivity. Qed.

Example hardware_third :
  to_prim (div (f 1) (f 3)) = PrimFloat.div (prim_of_Z 1) (prim_of_Z 3).
Proof. vm_compute. reflexivity. Qed.

Example hardware_decimal :
  to_prim (sub (of_decimal 58001 3) (f 55))
  = PrimFloat.sub (PrimFloat.div (prim_of_Z 58001) (prim_of_Z 1000))
      (prim_of_Z 55).
Proof. vm_compute. reflexivity. Qed.

Example hardware_subnormal :
  to_prim (mul (div (div (f 1) (f (10 ^ 300))) (f (10 ^ 20)))
             (div (f 17) (f 10)))
  = PrimFloat.mul
      (PrimFloat.div (PrimFloat.div (prim_of_Z 1) (to_prim (f (10 ^ 300))))
         (to_prim (f (10 ^ 20))))
      (PrimFloat.div (prim_of_Z 17) (prim_of_Z 10))
  /\ is_positive (div (div (f 1) (f (10 ^ 300))) (f (10 ^ 20))) = true
  /\ Z.ltb (units (div (div (f 1) (f (10 ^ 300))) (f (10 ^ 20)))) (2 ^ 52)
     = true.
Proof. vm_compute. repeat split. Qed.

Example hardware_zero_divisor :
  to_prim (div (f 50000000) (Zero false))
  = PrimFloat.div (prim_of_Z 50000000) PrimFloat.zero.
Proof. vm_compute. reflexivity. Qed.

Lemma add_not_nan (a c : float) :
  is_finite a = true -> is_nan c = false -> is_nan (add a c) = false.
Proof.
  intros Ha Hc. destruct (is_finite c) eqn:Fc.
  - destruct (add_finite a c Ha Fc) as [z ->]. apply round_units_not_nan.
  - destruct a as [| | s | n], c as [| t | t | m]; try discriminate; reflexivity.
Qed.

Lemma sub_not_nan (a c : float) :
  is_finite a = true -> is_nan c = false -> is_nan (sub a c) = false.
Proof. intros Ha Hc. apply add_not_nan; [exact Ha | now destruct c]. Qed.

Lemma aum_no_flow_nonneg (s ps pe : float) :
  is_positive s = true -> is_positive ps = true -> is_positive pe = true ->
  nonneg (aum_no_flow s ps pe) = true.
Proof.
  intros Hs Hps Hpe. unfold aum_no_flow, units_start.
  pose proof of_Z_1000000_positive as M.
  apply div_nonneg_pos; [| exact M].
  apply mul_nonneg_pos; [| exact Hpe].
  apply div_nonneg_pos; [| exact Hps].
  apply mul_nonneg_pos; [| exact M].
  now apply positive_nonneg.
Qed.

(** The flow before rounding never decreases when the closing size grows. *)
Lemma flow_monotone (s ps pe e1 e2 : float) :
  is_positive s = true -> is_positive ps = true -> is_positive pe = true ->
  is_finite e1 = true -> is_finite e2 = true -> leb e1 e2 = true ->
  leb (flow s e1 ps pe) (flow s e2 ps pe) = true.
Proof.
  intros Hs Hps Hpe F1 F2 L. unfold flow.
  apply sub_mono_l; auto.
  apply nonneg_not_nan. now apply aum_no_flow_nonneg.
Qed.

(** C9, as amended.  For positive finite opening size and prices, the
    reported flow never decreases when the closing size grows: for finite
    closing sizes [e1 < e2] the flow reported for [e1] is at most the one
    reported for [e2].  (It can be the same: the report is rounded to two
    decimals.) *)
Theorem reported_flow_monotone (d : date) (code : string)
    (s ps pe e1 e2 : float) :
  is_positive s = true -> is_positive ps = true -> is_positive pe = true ->
  is_finite e1 = true -> is_finite e2 = true -> ltb e1 e2 = true ->
  leb (flow_gbp_m (flow_record d code s e1 ps pe))
      (flow_gbp_m (flow_record d code s e2 ps pe)) = true.
Proof.
  intros Hs Hps Hpe F1 F2 L. cbn [flow_record flow_gbp_m].
  pose proof (nonneg_not_nan _ (aum_no_flow_nonneg s ps pe Hs Hps Hpe)) as N.
  apply round2_mono.
  - unfold flow. now apply sub_not_nan.
  - unfold flow. now apply sub_not_nan.
  - apply flow_monotone; auto. now apply ltb_leb.
Qed.

(** C2.  With prices 100 and 110 and an opening size of 50: the implied
    units are 500,000, the no-flow size is 55, and the reported flow is
    exactly 3 for a closing size of 58 and exactly -3 for a closing size of
    52, in the formulas and in a run of the back-solver on factsheets that
    show these sizes. *)
Theorem worked_scenario :
  units_start (f 50) (f 100) = f 500000 /\
  aum_no_flow (f 50) (f 100) (f 110) = f 55 /\
  flow_gbp_m (flow_record q1_end "LIFE01" (f 50) (f 58) (f 100) (f 110)) = f 3 /\
  flow_gbp_m (flow_record q1_end "LIFE01" (f 50) (f 52) (f 100) (f 110)) = f (-3) /\
  fst (backsolve_flows (changing "Fund size £50mn" "Fund size £58mn") q1_end
         ["LIFE01"] (prices "LIFE01" (f 100) (f 110)) w0)
  = Return [mkflow q1_end "LIFE01" (f 3)] /\
  fst (backsolve_flows (changing "Fund size £50mn" "Fund size £52mn") q1_end
         ["LIFE01"] (prices "LIFE01" (f 100) (f 110)) w0)
  = Return [mkflow q1_end "LIFE01" (f (-3))].
Proof. vm_compute. repeat split. Qed.

(** C3.  LIFE01 has no price on the quarter start, PENS01 has all it
    needs.  The batch ends with the [IndexError] of [.iloc[0]], whichever of
    the two funds comes first, and returns no record for PENS01. *)
Theorem price_gap_aborts_the_batch :
  price_at prices_with_gap "LIFE01" (quarter_start q1_end) = None /\
  good_fund (steady "Fund size £7.3bn") (quarter_start q1_end) q1_end
    prices_with_gap "PENS01" /\
  fst (backsolve_flows (steady "Fund size £7.3bn") q1_end
         ["LIFE01"; "PENS01"] prices_with_gap w0)
  = Raise (IndexError "single positional indexer is out-of-bounds") /\
  fst (backsolve_flows (steady "Fund size £7.3bn") q1_end
         ["PENS01"; "LIFE01"] prices_with_gap w0)
  = Raise (IndexError "single positional indexer is out-of-bounds").
Proof.
  split; [reflexivity |]. split.
  - split; [| split]; try (vm_compute; discriminate).
    intros t. exists (f 7300). vm_compute. reflexivity.
  - split; vm_compute; reflexivity.
Qed.

(** ** Runs that bear the statements out *)

Lemma size_ignores_as_of_witness :
  let internet := steady "Fund size £7.3bn" in
  let w1 := mkworld [FACTSHEET_PDF "LIFE01"] [] [] in
  let r1 := get_month_end_size internet "PENS01" q1_first w0 in
  let r2 := get_month_end_size internet "PENS01" q1_end w1 in
  fst r1 = fst r2 /\
  requests (snd r1) = requests w0 ++ [FACTSHEET_PDF "PENS01"] /\
  requests (snd r2) = requests w1 ++ [FACTSHEET_PDF "PENS01"] /\
  (stderr (snd r1) = stderr w0 \/
   stderr (snd r1) = stderr w0 ++ [stale_warning "PENS01" q1_first]) /\
  (stderr (snd r2) = stderr w1 \/
   stderr (snd r2) = stderr w1 ++ [stale_warning "PENS01" q1_end]) /\
  stdout (snd r1) = stdout w0 /\ stdout (snd r2) = stdout w1.
Proof.
  apply (size_ignores_as_of (steady "Fund size £7.3bn") "PENS01"
           q1_first q1_end w0 (mkworld [FACTSHEET_PDF "LIFE01"] [] [])).
  reflexivity.
Defined.

Lemma record_whatever_the_sign_witness :
  let internet := changing "Fund size £50mn" "Fund size £58mn" in
  let price_df := prices "LIFE01" (Zero false) (f 110) in
  let record :=
    mkflow q1_end "LIFE01"
      (round2
         (sub (f 58)
            (div (mul (div (mul (f 50) (of_Z 1000000)) (Zero false)) (f 110))
               (of_Z 1000000)))) in
  (exists w',
     backsolve_loop internet q1_first q1_end ("LIFE01" :: []) price_df [] w0
     = backsolve_loop internet q1_first q1_end [] price_df ([] ++ [record]) w')
  /\
  (forall out w',
     backsolve_loop internet q1_first q1_end ("LIFE01" :: []) price_df [] w0
     = (Return out, w') ->
     In record out).
Proof.
  apply (record_whatever_the_sign
           (changing "Fund size £50mn" "Fund size £58mn") q1_first q1_end
           "LIFE01" [] (prices "LIFE01" (Zero false) (f 110)) [] w0
           (f 50) (f 58) (Zero false) (f 110)); vm_compute; reflexivity.
Defined.

Lemma one_failed_fetch_witness :
  exists rows w' urls lines,
    Tracker.backsolve_flows (one_missing "LIFE02" "Fund size £7.3bn") q1_end
      (["LIFE01"] ++ "LIFE02" :: ["PENS01"])
      (prices "LIFE01" (f 100) (f 110) ++ prices "PENS01" (f 200) (f 190)) w0
    = (Return rows, w') /\
    List.length rows = (List.length (["LIFE01"] ++ "LIFE02" :: ["PENS01"]) - 1)%nat /\
    map fl_code rows = ["LIFE01"] ++ ["PENS01"] /\
    ~ In "LIFE02" (map fl_code rows) /\
    grows w0 w' urls lines /\
    In ("LIFE02" ++ ": " ++ str_exn (RequestException "404 Client Error: Not Found"))%string lines.
Proof.
  apply (one_failed_fetch (one_missing "LIFE02" "Fund size £7.3bn") q1_end
           ["LIFE01"] ["PENS01"] "LIFE02").
  - repeat constructor; try (intros t; exists (f 7300); vm_compute; reflexivity);
      vm_compute; discriminate.
  - left. vm_compute. reflexivity.
Defined.

Lemma reported_flow_monotone_witness :
  leb (flow_gbp_m (flow_record q1_end "LIFE01" (f 50) (f 52) (f 100) (f 110)))
      (flow_gbp_m (flow_record q1_end "LIFE01" (f 50) (f 58) (f 100) (f 110)))
  = true.
Proof.
  apply (reported_flow_monotone q1_end "LIFE01" (f 50) (f 100) (f 110)
           (f 52) (f 58)); vm_compute; reflexivity.
Defined.

(** Against C9 as stated: closing sizes 58 and 58.001 are distinct and
    both are reported as a flow of 3. *)
Lemma reported_flow_not_strict :
  let aum_end_1 := f 58 in
  let aum_end_2 := of_decimal 58001 3 in
  let report aum_end :=
    flow_gbp_m (flow_record q1_end "LIFE01" (f 50) aum_end (f 100) (f 110)) in
  is_positive (f 50) = true /\ is_positive (f 100) = true /\
  is_positive (f 110) = true /\
  ltb aum_end_1 aum_end_2 = true /\
  report aum_end_1 = f 3 /\ report aum_end_2 = f 3 /\
  ltb (report aum_end_1) (report aum_end_2) = false.
Proof. vm_compute. repeat split. Qed.

(** Against C5 as stated: with a starting price of zero the record is
    emitted with a flow of minus infinity, and with a starting price of
    -100 it is emitted with a flow of 113. *)
Lemma flow_emitted_for_zero_price :
  price_at (prices "LIFE01" (Zero false) (f 110)) "LIFE01"
    (quarter_start q1_end) = Some (Zero false) /\
  fst (backsolve_flows (changing "Fund size £50mn" "Fund size £58mn") q1_end
         ["LIFE01"] (prices "LIFE01" (Zero false) (f 110)) w0)
  = Return [mkflow q1_end "LIFE01" (Inf true)] /\
  ltb (f (-100)) (Zero false) = true /\
  fst (backsolve_flows (changing "Fund size £50mn" "Fund size £58mn") q1_end
         ["LIFE01"] (prices "LIFE01" (f (-100)) (f 110)) w0)
  = Return [mkflow q1_end "LIFE01" (f 113)].
Proof. vm_compute. repeat split. Qed.

End TrackerFacts.

(* ================================================================== *)
(** * More on the dates of the driver *)
(* ================================================================== *)

Module DriverFacts.
Import Calendar Tracker Scenarios CalendarFacts.

Lemma shift_month_start_back (y m d k : Z) :
  1 <= m <= 12 -> -12 <= k <= 0 ->
  shift_month_start (mkdate y m d) k = first_of_month_before y m (- k).
Proof.
  intros Hm Hk. unfold shift_month_start, first_of_month_before.
  cbn [month year].
  destruct (Z.ltb_spec (- k) m).
  - destruct (Z.eq_dec (m + k) 12) as [E | N].
    + rewrite E. simpl. f_equal; lia.
    + rewrite Z.mod_small, Z.div_small by lia.
      destruct (Z.eqb_spec (m + k) 0); [lia |].
      f_equal; lia.
  - destruct (Z.eq_dec (m + k) 0) as [E | N].
    + rewrite E. simpl. f_equal; lia.
    + replace ((m + k) mod 12) with (m + k + 12)
        by (apply (Z.mod_unique _ _ (-1)); lia).
      replace ((m + k) / 12) with (-1)
        by (apply (Z.div_unique _ _ _ (m + k + 12)); lia).
      destruct (Z.eqb_spec (m + k + 12) 0); [lia |].
      f_equal; lia.
Qed.

(** The quarter start, by cases on the date. *)
Lemma quarter_start_shape (d : date) :
  1 <= month d <= 12 -> 1 <= day d ->
  quarter_start d =
  first_of_month_before (year d) (month d)
    (if opens_quarter (month d) && (day d =? 1) then 3
     else (month d - 1) mod 3).
Proof.
  destruct d as [y m dd]. cbn [month day year]. intros Hm Hd.
  unfold quarter_start, sub_QuarterBegin_1, QuarterBegin_apply, roll_qtrday.
  cbn [month day year].
  assert (Hm' : m = 1 \/ m = 2 \/ m = 3 \/ m = 4 \/ m = 5 \/ m = 6 \/ m = 7 \/
                m = 8 \/ m = 9 \/ m = 10 \/ m = 11 \/ m = 12) by lia.
  destruct (Z.ltb_spec 1 dd) as [D | D].
  - replace (dd =? 1) with false by (symmetry; apply Z.eqb_neq; lia).
    rewrite andb_false_r.
    repeat (destruct Hm' as [-> | Hm']); try subst m;
      rewrite shift_month_start_back by (vm_compute; split; discriminate);
      reflexivity.
  - replace dd with 1 by lia.
    repeat (destruct Hm' as [-> | Hm']); try subst m;
      rewrite shift_month_start_back by (vm_compute; split; discriminate);
      reflexivity.
Qed.

(** X1.  From any date the quarter start of the back-solver is the first
    day of a month: three months back from a date that is itself the first
    day of January, April, July or October, and otherwise the first day of
    the calendar quarter the date lies in. *)
Theorem quarter_start_characterised (d : date) :
  1 <= month d <= 12 -> 1 <= day d ->
  quarter_start d =
  first_of_month_before (year d) (month d)
    (if opens_quarter (month d) && (day d =? 1) then 3
     else (month d - 1) mod 3).
Proof. intros. apply quarter_start_shape; assumption. Qed.

(** The quarter end of the driver, by cases on the date. *)
Lemma q_end_of_shape (today : date) :
  1 <= month today <= 12 -> 1 <= day today ->
  q_end_of today =
  first_of_month_before (year today) (month today)
    (if day today =? 1 then 1 else 0).
Proof.
  destruct today as [y m d]. cbn [month day year]. intros Hm Hd.
  unfold q_end_of, sub_MonthBegin, MonthBegin_apply, roll_convention.
  cbn [month day year].
  destruct (Z.ltb_spec d 1); [lia |]. simpl andb. cbv iota.
  destruct (Z.ltb_spec 1 d) as [D | D].
  - replace (d =? 1) with false by (symmetry; apply Z.eqb_neq; lia).
    simpl andb. cbv iota.
    rewrite shift_month_start_back by lia. reflexivity.
  - replace d with 1 by lia. simpl andb. cbv iota.
    rewrite shift_month_start_back by lia. reflexivity.
Qed.

(** X2.  The quarter end of the driver is the first day of today's month,
    or of the month before when today is the first of a month. *)
Theorem q_end_of_characterised (today : date) :
  1 <= month today <= 12 -> 1 <= day today ->
  q_end_of today =
  first_of_month_before (year today) (month today)
    (if day today =? 1 then 1 else 0).
Proof. intros. apply q_end_of_shape; assumption. Qed.

(** X3.  After the first day of January, April, July or October the
    driver asks the back-solver for the window that runs from the first day
    of the month three months before to the first day of this month. *)
Theorem driver_window (today : date) :
  opens_quarter (month today) = true -> 1 < day today ->
  q_end_of today = mkdate (year today) (month today) 1 /\
  quarter_start (q_end_of today)
  = first_of_month_before (year today) (month today) 3.
Proof.
  intros Hq Hd.
  assert (Hm : 1 <= month today <= 12).
  { unfold opens_quarter in Hq. simpl in Hq.
    rewrite !orb_true_iff, !Z.eqb_eq in Hq. lia. }
  assert (E : q_end_of today = mkdate (year today) (month today) 1).
  { rewrite q_end_of_shape by lia.
    replace (day today =? 1) with false by (symmetry; apply Z.eqb_neq; lia).
    unfold first_of_month_before.
    replace (0 <? month today) with true by (symmetry; apply Z.ltb_lt; lia).
    f_equal. lia. }
  split; [exact E |].
  rewrite E, quarter_start_shape by (cbn; lia).
  cbn [month day year]. rewrite Hq. reflexivity.
Qed.

(** ** The business days of the driver *)

Lemma weekday_in_month (y m d k : Z) :
  weekday (mkdate y m (d + k)) = (weekday (mkdate y m d) + k) mod 7.
Proof.
  unfold weekday, days_from_civil. cbn [year month day].
  rewrite Zplus_mod_idemp_l. f_equal. lia.
Qed.

Lemma weekday_range (d : date) : 0 <= weekday d < 7.
Proof. unfold weekday. apply Z.mod_pos_bound. lia. Qed.

Lemma next_day_in_month (y m d : Z) :
  d < 28 -> next_day (mkdate y m d) = mkdate y m (d + 1).
Proof.
  intros H. unfold next_day. cbn [year month day].
  pose proof (days_in_month_ge_28 y m).
  destruct (Z.ltb_spec d (days_in_month y m)); [reflexivity | lia].
Qed.

Lemma bdays_scan_zero (fuel : nat) (d : date) : bdays_scan fuel d 0 = [].
Proof. now destruct fuel. Qed.

(** The first [n] of the business days asked for are the business days
    one gets when asking for [n]. *)
Lemma firstn_bdays_scan (n : nat) : forall fuel d periods,
  (n <= periods)%nat ->
  firstn n (bdays_scan fuel d periods) = bdays_scan fuel d n.
Proof.
  intros fuel. revert n.
  induction fuel as [| fuel IH]; intros n d periods H.
  - destruct periods, n; reflexivity.
  - destruct n as [| n]; [now rewrite bdays_scan_zero |].
    destruct periods as [| periods]; [lia |].
    cbn [bdays_scan]. destruct (weekday d <? 5).
    + cbn [firstn]. f_equal. apply IH. lia.
    + apply IH. lia.
Qed.

(** One day of the scan, inside the first four weeks of a month whose first
    day falls on weekday [w1]. *)
Lemma bdays_scan_step (y m w1 d : Z) (fuel periods : nat) :
  weekday (mkdate y m 1) = w1 -> d < 28 ->
  bdays_scan (S fuel) (mkdate y m d) (S periods)
  = if (w1 + (d - 1)) mod 7 <? 5
    then mkdate y m d :: bdays_scan fuel (mkdate y m (d + 1)) periods
    else bdays_scan fuel (mkdate y m (d + 1)) (S periods).
Proof.
  intros Hw Hd. cbn [bdays_scan].
  rewrite next_day_in_month by exact Hd.
  replace d with (1 + (d - 1)) at 1 by lia.
  now rewrite weekday_in_month, Hw.
Qed.

Lemma first_ten_of_bdate_range (y m : Z) :
  firstn 10 (bdate_range (mkdate y m 1) 20)
  = map (mkdate y m) (first_ten_business_days (weekday (mkdate y m 1))).
Proof.
  unfold bdate_range. rewrite firstn_bdays_scan by lia.
  pose proof (weekday_range (mkdate y m 1)) as R.
  assert (C : weekday (mkdate y m 1) = 0 \/ weekday (mkdate y m 1) = 1 \/
              weekday (mkdate y m 1) = 2 \/ weekday (mkdate y m 1) = 3 \/
              weekday (mkdate y m 1) = 4 \/ weekday (mkdate y m 1) = 5 \/
              weekday (mkdate y m 1) = 6) by lia.
  change (2 * 20 + 2)%nat with 42%nat.
  repeat (destruct C as [C | C]); rewrite C;
    repeat (rewrite (bdays_scan_step y m _ _ _ _ C) by lia;
            cbn [Z.add Z.sub Z.modulo Z.div_eucl Z.pos_div_eucl Z.ltb Z.compare
                 Z.opp Z.leb Z.mul Pos.add Pos.succ Pos.compare Pos.compare_cont
                 Pos.mul Z.pos_sub Pos.pred_double Z.double Z.succ_double
                 Z.pred_double Pos.add_carry fst snd];
            cbv iota);
    rewrite ?bdays_scan_zero; reflexivity.
Qed.

Lemma first_ten_are_weekdays (w1 k : Z) :
  0 <= w1 < 7 -> In k (first_ten_business_days w1) ->
  1 <= k <= 14 /\ (w1 + (k - 1)) mod 7 < 5.
Proof.
  intros R H.
  assert (C : w1 = 0 \/ w1 = 1 \/ w1 = 2 \/ w1 = 3 \/ w1 = 4 \/ w1 = 5 \/ w1 = 6)
    by lia.
  repeat (destruct C as [C | C]); subst w1; simpl in H;
    repeat (destruct H as [H | H]; [subst k; split; [lia | reflexivity] |]);
    destruct H.
Qed.

Lemma weekdays_to_12_are_first_ten (w1 k : Z) :
  0 <= w1 < 7 -> 1 <= k <= 12 -> (w1 + (k - 1)) mod 7 < 5 ->
  In k (first_ten_business_days w1).
Proof.
  intros R K H.
  assert (C : w1 = 0 \/ w1 = 1 \/ w1 = 2 \/ w1 = 3 \/ w1 = 4 \/ w1 = 5 \/ w1 = 6)
    by lia.
  assert (D : k = 1 \/ k = 2 \/ k = 3 \/ k = 4 \/ k = 5 \/ k = 6 \/ k = 7 \/
              k = 8 \/ k = 9 \/ k = 10 \/ k = 11 \/ k = 12) by lia.
  repeat (destruct C as [C | C]); subst w1;
    repeat (destruct D as [D | D]); subst k;
    first [ exfalso; vm_compute in H; discriminate H
          | simpl; tauto ].
Qed.

Lemma in_first_ten (today : date) :
  existsb (date_eqb today) (firstn 10 (bdate_range (replace_day1 today) 20))
  = true <->
  In (day today)
     (first_ten_business_days (weekday (replace_day1 today))).
Proof.
  unfold replace_day1. rewrite first_ten_of_bdate_range.
  rewrite existsb_exists. split.
  - intros [x [Hin E]]. apply date_eqb_eq in E. subst x.
    apply in_map_iff in Hin. destruct Hin as [k [E Hk]].
    rewrite <- E. exact Hk.
  - intros H. exists today. split; [| now apply date_eqb_eq].
    apply in_map_iff. exists (day today). split; [now destruct today | exact H].
Qed.

Lemma weekday_from_first (today : date) :
  weekday today = (weekday (replace_day1 today) + (day today - 1)) mod 7.
Proof.
  unfold replace_day1. rewrite <- weekday_in_month.
  destruct today as [y m d]. cbn [year month day]. f_equal. f_equal. lia.
Qed.

(** A day on which flows are estimated. *)
Lemma estimation_due_early_weekday (today : date) :
  estimation_due today = true ->
  opens_quarter (month today) = true /\
  weekday today < 5 /\
  1 <= day today <= 14.
Proof.
  unfold estimation_due. cbv zeta. rewrite andb_true_iff, in_first_ten.
  intros [Hin Hq]. split; [exact Hq |].
  apply first_ten_are_weekdays in Hin; [| apply weekday_range].
  rewrite weekday_from_first. tauto.
Qed.

(** X4.  Flows are estimated only on a Monday to Friday, not after the
    14th, of January, April, July or October. *)
Theorem estimation_due_only_early_weekdays (today : date) :
  estimation_due today = true ->
  opens_quarter (month today) = true /\
  weekday today < 5 /\
  1 <= day today <= 14.
Proof. intros. apply estimation_due_early_weekday; assumption. Qed.

(** X5.  Flows are estimated on every Monday to Friday up to the 12th of
    January, April, July and October: on each of these days, not on the
    tenth business day alone. *)
Theorem estimation_due_every_early_weekday (today : date) :
  opens_quarter (month today) = true ->
  weekday today < 5 ->
  1 <= day today <= 12 ->
  estimation_due today = true.
Proof.
  intros Hq Hw Hd. unfold estimation_due. cbv zeta.
  rewrite andb_true_iff, in_first_ten. split; [| exact Hq].
  apply weekdays_to_12_are_first_ten;
    [apply weekday_range | exact Hd | now rewrite <- weekday_from_first].
Qed.

Lemma estimation_due_only_early_weekdays_witness :
  opens_quarter (month april_10) = true /\
  weekday april_10 < 5 /\
  1 <= day april_10 <= 14.
Proof.
  apply (estimation_due_only_early_weekdays april_10). reflexivity.
Defined.

Lemma estimation_due_every_early_weekday_witness :
  estimation_due (mkdate 2024 4 1) = true.
Proof.
  apply (estimation_due_every_early_weekday (mkdate 2024 4 1));
    [reflexivity | reflexivity | simpl; lia].
Defined.

Lemma quarter_start_characterised_witness :
  quarter_start q1_end =
  first_of_month_before (year q1_end) (month q1_end)
    (if opens_quarter (month q1_end) && (day q1_end =? 1)%Z then 3
     else (month q1_end - 1) mod 3)%Z.
Proof.
  apply (quarter_start_characterised q1_end); simpl; lia.
Defined.

Lemma q_end_of_characterised_witness :
  q_end_of april_10 =
  first_of_month_before (year april_10) (month april_10)
    (if (day april_10 =? 1)%Z then 1 else 0)%Z.
Proof.
  apply (q_end_of_characterised april_10); simpl; lia.
Defined.

Lemma driver_window_witness :
  q_end_of april_10 = mkdate (year april_10) (month april_10) 1 /\
  quarter_start (q_end_of april_10)
  = first_of_month_before (year april_10) (month april_10) 3.
Proof.
  apply (driver_window april_10); [reflexivity | simpl; lia].
Defined.

End DriverFacts.

(* ================================================================== *)
(** * More on the ledgers *)
(* ================================================================== *)

Module LedgerFacts.
Import Calendar Frame Tracker Scenarios FrameFacts.
Local Open Scope string_scope.
Local Open Scope list_scope.




Section Coverage.
Context {A K : Type} (key : A -> K) (key_eqb : K -> K -> bool).
Hypothesis key_eqb_eq : forall a b, key_eqb a b = true <-> a = b.

Lemma merge_rows_and_keys (existing batch : list A) :
  (forall r, In r (drop_duplicates key key_eqb (concat existing batch)) ->
     In r existing \/ In r batch) /\
  (forall r, In r existing \/ In r batch ->
     In (key r) (map key (drop_duplicates key key_eqb (concat existing batch)))).
Proof.
  unfold drop_duplicates, concat. split.
  - intros r H. apply (dd_from_In key key_eqb key_eqb_eq) in H.
    destruct H as [H _]. now apply in_app_or in H.
  - intros r H.
    destruct (dd_from_covers key key_eqb key_eqb_eq (existing ++ batch) [] r)
      as [C | []]; [now apply in_or_app | exact C].
Qed.
End Coverage.

(** X9.  A merge invents no row and loses no key: every row kept comes
    from the file or the batch, and every key of the file and of the batch
    is the key of a row kept. *)
Theorem merge_loses_no_key :
  (forall (existing batch : list price_row) r,
     (In r (store_prices (Some existing) batch) ->
        In r existing \/ In r batch) /\
     (In r existing \/ In r batch ->
        In (price_key r)
           (map price_key (store_prices (Some existing) batch)))) /\
  (forall (existing batch : list flow_row) r,
     (In r (store_flows (Some existing) batch) ->
        In r existing \/ In r batch) /\
     (In r existing \/ In r batch ->
        In (flow_key r) (map flow_key (store_flows (Some existing) batch)))).
Proof.
  split; intros existing batch r.
  - destruct (merge_rows_and_keys price_key key_eqb key_eqb_eq existing batch)
      as [H1 H2]. split; [apply H1 | apply H2].
  - destruct (merge_rows_and_keys flow_key key_eqb key_eqb_eq existing batch)
      as [H1 H2]. split; [apply H1 | apply H2].
Qed.


End LedgerFacts.

(* ================================================================== *)
(** * More on the factsheet *)
(* ================================================================== *)

Module FactsheetFacts.
Import Calendar Frame Tracker Scenarios TrackerFacts.
Local Open Scope string_scope.

(** ** The groups of the pattern *)




(** *** A size in millions written with a bare [m] *)

Lemma match_here_not_f (c : ascii) (s : string) :
  lower c <> "f"%char -> match_here (String c s) = None.
Proof.
  intros H. unfold match_here. cbn [match_literal].
  destruct (Ascii.eqb_spec (lower "F") (lower c)) as [E | N]; [| reflexivity].
  exfalso. apply H. rewrite <- E. reflexivity.
Qed.

Lemma re_search_skip (c : ascii) (s : string) :
  lower c <> "f"%char ->
  re_search_fund_size (String c s) = re_search_fund_size s.
Proof. intros H. cbn [re_search_fund_size]. now rewrite match_here_not_f. Qed.

Lemma num_char_not_f (c : ascii) : is_num_char c = true -> lower c <> "f"%char.
Proof.
  unfold is_num_char, is_digit, lower. intros H E.
  destruct c as [[] [] [] [] [] [] [] []]; vm_compute in H, E; congruence.
Qed.

Lemma num_char_not_space (c : ascii) : is_num_char c = true -> is_space c = false.
Proof.
  destruct c as [[] [] [] [] [] [] [] []]; vm_compute; congruence.
Qed.

Lemma re_search_num_m (num : string) :
  all_chars is_num_char num = true ->
  re_search_fund_size (num ++ "m") = None.
Proof.
  induction num as [| c num IH]; simpl append.
  - intros _. reflexivity.
  - cbn [all_chars]. rewrite andb_true_iff. intros [Hc Hn].
    rewrite re_search_skip by now apply num_char_not_f.
    now apply IH.
Qed.

Lemma take_num_num_m (num : string) :
  all_chars is_num_char num = true ->
  take_num (num ++ "m") = (num, "m").
Proof.
  induction num as [| c num IH]; simpl append.
  - intros _. reflexivity.
  - cbn [all_chars take_num]. rewrite andb_true_iff. intros [Hc Hn].
    now rewrite Hc, IH.
Qed.

Lemma skip_spaces_num_m (num : string) :
  all_chars is_num_char num = true ->
  skip_spaces (num ++ "m") = num ++ "m".
Proof.
  destruct num as [| c num]; [reflexivity |].
  cbn [all_chars append skip_spaces]. rewrite andb_true_iff. intros [Hc _].
  now rewrite (num_char_not_space c Hc).
Qed.

Lemma bare_m_no_match (num : string) :
  all_chars is_num_char num = true ->
  re_search_fund_size ("Fund size £" ++ num ++ "m") = None.
Proof.
  intros H.
  assert (M : match_here ("Fund size £" ++ num ++ "m") = None).
  { unfold match_here.
    change (match_literal "Fund size" ("Fund size £" ++ num ++ "m"))
      with (Some (" £" ++ num ++ "m")).
    cbv beta iota.
    change (skip_spaces (" £" ++ num ++ "m")) with ("£" ++ num ++ "m").
    change (match_literal "£" ("£" ++ num ++ "m")) with (Some (num ++ "m")).
    cbv beta iota.
    rewrite skip_spaces_num_m, take_num_num_m by exact H.
    now destruct num. }
  change ("Fund size £" ++ num ++ "m")
    with (String "F" ("und size £" ++ num ++ "m")) in *.
  cbn [re_search_fund_size]. rewrite M.
  change ("und size £" ++ num ++ "m")
    with (String "u" (String "n" (String "d" (String " " (String "s"
           (String "i" (String "z" (String "e" (String " "
           (String "194" (String "163" (num ++ "m")))))))))))).
  rewrite !re_search_skip by (vm_compute; discriminate).
  now apply re_search_num_m.
Qed.

Local Open Scope list_scope.

(** X11.  A factsheet that reads [Fund size £845m], the unit a bare [m],
    is not matched: the pattern asks for [mn] or [bn], and
    [get_month_end_size] raises [ValueError]. *)
Theorem bare_m_not_found (internet : nat -> string -> response)
    (code : string) (as_of : date) (w : world) (num : string) :
  all_chars is_num_char num = true ->
  internet (List.length (requests w)) (FACTSHEET_PDF code)
  = Reply None (Some [("Fund size £" ++ num ++ "m")%string]) ->
  fst (get_month_end_size internet code as_of w)
  = Raise (ValueError ("Could not find Fund size for " ++ code)%string).
Proof.
  intros Hn Hr.
  destruct (get_month_end_size_run internet code as_of w) as [warn [E _]].
  rewrite E. cbn [fst]. unfold fetched_at, document_size. rewrite Hr.
  cbn [String.concat]. now rewrite bare_m_no_match.
Qed.

Section Script.
Variable internet : nat -> string -> response.

Local Abbreviation fetched_at := (Tracker.fetched_at internet).
Local Abbreviation get_month_end_size := (Tracker.get_month_end_size internet).

(** A fetch that meets nothing it can read. *)
Lemma unreadable_fetch (code : string) (as_of : date) (w : world) :
  unreadable (internet (List.length (requests w)) (FACTSHEET_PDF code)) = true ->
  exists msg,
    (fetched_at (List.length (requests w)) code = Raise (RequestException msg)
     \/ fetched_at (List.length (requests w)) code = Raise (PdfError msg)) /\
    get_month_end_size code as_of w
    = (fetched_at (List.length (requests w)) code,
       mkworld (requests w ++ [FACTSHEET_PDF code]) (stderr w) (stdout w)).
Proof.
  unfold Tracker.get_month_end_size, Tracker.fetched_at, document_size, bind,
    requests_get, raise_for_status, extract_text.
  destruct (internet (List.length (requests w)) (FACTSHEET_PDF code))
    as [reason | [reason |] [pages |]]; simpl; try discriminate; intros _;
    eexists; split; try reflexivity; eauto.
Qed.

(** X10.  When the request gets no answer, an error status or a body that
    is no PDF, [get_month_end_size] raises, having made its one request
    and printed nothing, whatever the date asked for. *)
Theorem unreadable_factsheet (code : string) (as_of : date) (w : world) :
  unreadable (internet (List.length (requests w)) (FACTSHEET_PDF code)) = true ->
  exists msg,
    (fetched_at (List.length (requests w)) code = Raise (RequestException msg)
     \/ fetched_at (List.length (requests w)) code = Raise (PdfError msg)) /\
    get_month_end_size code as_of w
    = (fetched_at (List.length (requests w)) code,
       mkworld (requests w ++ [FACTSHEET_PDF code]) (stderr w) (stdout w)).
Proof. intros. apply unreadable_fetch; assumption. Qed.

End Script.

Lemma bare_m_not_found_witness :
  fst (get_month_end_size (one_page ("Fund size £" ++ "845" ++ "m")) "LIFE01"
         q1_end w0)
  = Raise (ValueError ("Could not find Fund size for " ++ "LIFE01")%string).
Proof.
  apply (bare_m_not_found (one_page ("Fund size £" ++ "845" ++ "m")) "LIFE01"
           q1_end w0 "845"); reflexivity.
Defined.

Lemma unreadable_factsheet_witness :
  exists msg,
    (fetched_at (one_missing "LIFE02" "Fund size £7.3bn")
       (List.length (requests w0)) "LIFE02" = Raise (RequestException msg)
     \/ fetched_at (one_missing "LIFE02" "Fund size £7.3bn")
          (List.length (requests w0)) "LIFE02" = Raise (PdfError msg)) /\
    get_month_end_size (one_missing "LIFE02" "Fund size £7.3bn") "LIFE02"
      q1_end w0
    = (fetched_at (one_missing "LIFE02" "Fund size £7.3bn")
         (List.length (requests w0)) "LIFE02",
       mkworld (requests w0 ++ [FACTSHEET_PDF "LIFE02"]) (stderr w0)
         (stdout w0)).
Proof.
  apply (unreadable_factsheet (one_missing "LIFE02" "Fund size £7.3bn")
           "LIFE02" q1_end w0).
  reflexivity.
Defined.


End FactsheetFacts.

(* ================================================================== *)
(** * More on the back-solver *)
(* ================================================================== *)

Module BackSolverFacts.
Import Calendar Frame Tracker Scenarios TrackerFacts FactsheetFacts.
Local Open Scope string_scope.
Local Open Scope list_scope.

Section Script.
Variable internet : nat -> string -> response.

Local Abbreviation fetched_at := (Tracker.fetched_at internet).
Local Abbreviation get_month_end_size := (Tracker.get_month_end_size internet).
Local Abbreviation both_fetches := (Tracker.both_fetches internet).
Local Abbreviation backsolve_loop := (Tracker.backsolve_loop internet).
Local Abbreviation backsolve_flows := (Tracker.backsolve_flows internet).
Local Abbreviation good_fund := (Tracker.good_fund internet).

(** What one turn of the loop can do: log a failed fetch and go on, append
    a record and go on, or leave with the [IndexError] of a price gap. *)
Lemma loop_turn (ms me : date) (code : string) (rest : list string)
    (price_df : list price_row) (flows : list flow_row) (w : world) :
  let t := List.length (requests w) in
  let url := FACTSHEET_PDF code in
  (exists e w1 urls lines,
     Tracker.fetch_fails internet t code e /\
     grows w w1 urls (lines ++ [(code ++ ": " ++ str_exn e)%string]) /\
     (urls = [url] \/ urls = [url; url]) /\
     backsolve_loop ms me (code :: rest) price_df flows w
     = backsolve_loop ms me rest price_df flows w1)
  \/
  (exists s e ps pe w1 lines,
     fetched_at t code = Return s /\ fetched_at (S t) code = Return e /\
     price_at price_df code ms = Some ps /\
     price_at price_df code me = Some pe /\
     grows w w1 [url; url] lines /\
     backsolve_loop ms me (code :: rest) price_df flows w
     = backsolve_loop ms me rest price_df
         (flows ++ [flow_record me code s e ps pe]) w1)
  \/
  (exists s e w1 lines,
     fetched_at t code = Return s /\ fetched_at (S t) code = Return e /\
     (price_at price_df code ms = None \/ price_at price_df code me = None) /\
     grows w w1 [url; url] lines /\
     backsolve_loop ms me (code :: rest) price_df flows w
     = (Raise gap_error, w1)).
Proof.
  cbv zeta.
  pose proof (both_fetches_run internet ms me code w) as B. cbv zeta in B.
  rewrite backsolve_loop_cons. unfold try_except.
  destruct (fetched_at (List.length (requests w)) code) as [s | e] eqn:F1.
  - destruct (fetched_at (S (List.length (requests w))) code) as [e | ex] eqn:F2.
    + destruct B as (w1 & E & lines & G). rewrite E.
      unfold bind. rewrite iloc0_price_at.
      destruct (price_at price_df code ms) as [ps |] eqn:Ps.
      * cbn beta iota. rewrite iloc0_price_at.
        destruct (price_at price_df code me) as [pe |] eqn:Pe.
        -- right. left. exists s, e, ps, pe, w1, lines. auto 10.
        -- right. right. exists s, e, w1, lines. auto 10.
      * right. right. exists s, e, w1, lines. auto 10.
    + destruct B as (w1 & E & lines & (R & S & O)). rewrite E.
      left. exists ex.
      exists (mkworld (requests w1)
                (stderr w1 ++ [(code ++ ": " ++ str_exn ex)%string]) (stdout w1)),
        [FACTSHEET_PDF code; FACTSHEET_PDF code], lines.
      split; [right; exists s; auto |]. split; [| split; [now right |]].
      * unfold grows. simpl. rewrite R, S, O, app_assoc. auto.
      * unfold bind, print_err. reflexivity.
  - destruct B as (w1 & E & lines & (R & S & O)). rewrite E.
    left. exists e.
    exists (mkworld (requests w1)
              (stderr w1 ++ [(code ++ ": " ++ str_exn e)%string]) (stdout w1)),
      [FACTSHEET_PDF code], lines.
    split; [now left |]. split; [| split; [now left |]].
    + unfold grows. simpl. rewrite R, S, O, app_assoc. auto.
    + unfold bind, print_err. reflexivity.
Qed.

(** Whatever the network and the frame hold, a run of the loop: requests
    only factsheets of listed funds, at most two for each; prints nothing
    to stdout; returns the list it was given followed by records of listed
    funds, in the order of the list, at most one for each place in it, all
    dated [me]; and raises nothing but the [IndexError] of a price gap. *)
Lemma loop_invariant (ms me : date) (price_df : list price_row)
    (codes : list string) :
  forall flows w out w',
    backsolve_loop ms me codes price_df flows w = (out, w') ->
    exists urls lines,
      grows w w' urls lines /\
      (List.length urls <= 2 * List.length codes)%nat /\
      (forall u, In u urls -> exists c, In c codes /\ u = FACTSHEET_PDF c) /\
      match out with
      | Return rows =>
          exists more,
            rows = flows ++ more /\
            subseq (map fl_code more) codes /\
            Forall (fun r => quarter_end r = me) more
      | Raise e =>
          e = gap_error /\
          exists c, In c codes /\
            (price_at price_df c ms = None \/ price_at price_df c me = None)
      end.
Proof.
  induction codes as [| code codes IH]; intros flows w out w' E.
  - simpl in E. injection E as <- <-. exists [], [].
    split; [| split; [| split]].
    + unfold grows. now rewrite !app_nil_r.
    + simpl. lia.
    + intros u [].
    + exists []. rewrite app_nil_r. repeat split; constructor.
  - destruct (loop_turn ms me code codes price_df flows w)
      as [(e & w1 & urls1 & lines1 & _ & G1 & U1 & E1)
         | [(s & e & ps & pe & w1 & lines1 & _ & _ & _ & _ & G1 & E1)
           | (s & e & w1 & lines1 & _ & _ & Gap & G1 & E1)]];
      rewrite E1 in E.
    + destruct (IH _ _ _ _ E) as (urls & lines & G & L & U & O).
      exists (urls1 ++ urls), ((lines1 ++ [(code ++ ": " ++ str_exn e)%string]) ++ lines).
      split; [exact (grows_trans _ _ _ _ _ _ _ G1 G) |].
      split; [rewrite length_app; destruct U1 as [-> | ->]; simpl in *; lia |].
      split.
      * intros u Hu. apply in_app_or in Hu. destruct Hu as [Hu | Hu].
        -- exists code. split; [now left |].
           destruct U1 as [-> | ->]; simpl in Hu; intuition congruence.
        -- destruct (U u Hu) as (c & Hc & ->). exists c. split; [now right | reflexivity].
      * destruct out as [rows | ex].
        -- destruct O as (more & -> & Sq & Fa). exists more.
           split; [reflexivity |]. split; [now constructor | exact Fa].
        -- destruct O as (-> & c & Hc & Hp). split; [reflexivity |].
           exists c. split; [now right | exact Hp].
    + destruct (IH _ _ _ _ E) as (urls & lines & G & L & U & O).
      exists ([FACTSHEET_PDF code; FACTSHEET_PDF code] ++ urls), (lines1 ++ lines).
      split; [exact (grows_trans _ _ _ _ _ _ _ G1 G) |].
      split; [rewrite length_app; simpl in *; lia |].
      split.
      * intros u Hu. apply in_app_or in Hu. destruct Hu as [Hu | Hu].
        -- exists code. split; [now left |]. simpl in Hu. intuition congruence.
        -- destruct (U u Hu) as (c & Hc & ->). exists c. split; [now right | reflexivity].
      * destruct out as [rows | ex].
        -- destruct O as (more & -> & Sq & Fa).
           exists (flow_record me code s e ps pe :: more).
           split; [now rewrite <- app_assoc |].
           split; [simpl; now constructor |].
           constructor; [reflexivity | exact Fa].
        -- destruct O as (-> & c & Hc & Hp). split; [reflexivity |].
           exists c. split; [now right | exact Hp].
    + injection E as <- <-.
      exists [FACTSHEET_PDF code; FACTSHEET_PDF code], lines1.
      split; [exact G1 |]. split; [simpl; lia |]. split.
      * intros u Hu. exists code. split; [now left |]. simpl in Hu. intuition congruence.
      * split; [reflexivity |]. exists code. split; [now left | exact Gap].
Qed.

(** ** The back-solver as a whole *)

(** X15.  Whatever it meets, a run of the back-solver requests nothing but
    factsheets of the listed funds, at most two for each fund listed, and
    prints nothing to stdout. *)
Theorem backsolve_flows_effects (month_end : date) (codes : list string)
    (price_df : list price_row) (w : world)
    (out : outcome (list flow_row)) (w' : world) :
  backsolve_flows month_end codes price_df w = (out, w') ->
  exists urls lines,
    grows w w' urls lines /\
    (List.length urls <= 2 * List.length codes)%nat /\
    (forall u, In u urls -> exists c, In c codes /\ u = FACTSHEET_PDF c).
Proof.
  intros E. apply loop_invariant in E.
  destruct E as (urls & lines & G & L & U & _). now exists urls, lines.
Qed.

(** X14.  The records returned are records of listed funds, in the order
    of the list and at most one for each place in the list, and all carry
    the quarter end that was asked for. *)
Theorem backsolve_flows_rows (month_end : date) (codes : list string)
    (price_df : list price_row) (w : world)
    (rows : list flow_row) (w' : world) :
  backsolve_flows month_end codes price_df w = (Return rows, w') ->
  subseq (map fl_code rows) codes /\
  Forall (fun r => quarter_end r = month_end) rows.
Proof.
  intros E. apply loop_invariant in E.
  destruct E as (_ & _ & _ & _ & _ & more & -> & Sq & Fa). now split.
Qed.

(** X16.  The only exception that leaves the back-solver is the
    [IndexError] of a price lookup, and then a listed fund has no price on
    the quarter start or on the quarter end: no failure of a fetch leaves
    it. *)
Theorem backsolve_flows_raises_only_for_a_gap (month_end : date)
    (codes : list string) (price_df : list price_row) (w : world)
    (e : exn) (w' : world) :
  backsolve_flows month_end codes price_df w = (Raise e, w') ->
  e = IndexError "single positional indexer is out-of-bounds" /\
  exists c, In c codes /\
    (price_at price_df c (quarter_start month_end) = None \/
     price_at price_df c month_end = None).
Proof.
  intros E. apply loop_invariant in E.
  destruct E as (_ & _ & _ & _ & _ & -> & H). now split.
Qed.

(** X13.  When every listed fund has a factsheet that yields a size and
    has its two prices, the back-solver returns one record for each fund,
    in the order of the list, having made two requests for each. *)
Theorem backsolve_flows_all_good (month_end : date) (codes : list string)
    (price_df : list price_row) (w : world) :
  Forall (good_fund (quarter_start month_end) month_end price_df) codes ->
  exists rows w',
    backsolve_flows month_end codes price_df w = (Return rows, w') /\
    map fl_code rows = codes /\
    List.length (requests w')
    = (List.length (requests w) + 2 * List.length codes)%nat.
Proof.
  intros H. unfold Tracker.backsolve_flows.
  destruct (loop_good_prefix internet _ month_end price_df codes H [] [] w)
    as (rows & w' & urls & lines & E & M & G & L).
  exists rows, w'. rewrite app_nil_r in E. split; [exact E |].
  split; [exact M |]. now rewrite (grows_time _ _ _ _ G), L.
Qed.

(** ** A network that does not change during the run *)

Lemma loop_steady (ms me : date) (price_df : list price_row)
    (codes : list string) :
  (forall t t' url, internet t url = internet t' url) ->
  forall flows w rows w',
    backsolve_loop ms me codes price_df flows w = (Return rows, w') ->
    exists more,
      rows = flows ++ more /\
      Forall (fun r =>
                exists s ps pe,
                  fetched_at 0 (fl_code r) = Return s /\
                  price_at price_df (fl_code r) ms = Some ps /\
                  price_at price_df (fl_code r) me = Some pe /\
                  r = flow_record me (fl_code r) s s ps pe) more.
Proof.
  intros Steady.
  induction codes as [| code codes IH]; intros flows w rows w' E.
  - simpl in E. injection E as <- _. exists []. now rewrite app_nil_r.
  - destruct (loop_turn ms me code codes price_df flows w)
      as [(e & w1 & urls1 & lines1 & _ & _ & _ & E1)
         | [(s & e & ps & pe & w1 & lines1 & Fs & Fe & Ps & Pe & _ & E1)
           | (s & e & w1 & lines1 & _ & _ & _ & _ & E1)]];
      rewrite E1 in E.
    + now apply IH in E.
    + apply IH in E. destruct E as (more & -> & Fa).
      exists (flow_record me code s e ps pe :: more).
      split; [now rewrite <- app_assoc |].
      constructor; [| exact Fa].
      unfold Tracker.fetched_at in *.
      rewrite (Steady _ 0%nat) in Fs. rewrite (Steady _ 0%nat) in Fe.
      assert (e = s) by congruence. subst e.
      exists s, ps, pe. auto.
    + discriminate.
Qed.

(** X18.  When the factsheets do not change during the run, the opening
    and the closing size of every record are one and the same number: the
    flow reported is that size less the size carried from the starting to
    the ending price. *)
Theorem steady_factsheet_same_size (month_end : date) (codes : list string)
    (price_df : list price_row) (w : world) (rows : list flow_row)
    (w' : world) :
  (forall t t' url, internet t url = internet t' url) ->
  backsolve_flows month_end codes price_df w = (Return rows, w') ->
  Forall (fun r =>
            exists s ps pe,
              fetched_at 0 (fl_code r) = Return s /\
              price_at price_df (fl_code r) (quarter_start month_end) = Some ps /\
              price_at price_df (fl_code r) month_end = Some pe /\
              flow_gbp_m r = Binary64.round2 (flow s s ps pe)) rows.
Proof.
  intros Steady E. apply (loop_steady _ _ _ _ Steady) in E.
  destruct E as (more & -> & Fa). simpl.
  eapply Forall_impl; [| exact Fa].
  intros r (s & ps & pe & Fs & Ps & Pe & ->). exists s, ps, pe. auto.
Qed.

(** ** Factsheets that cannot be read *)

Lemma loop_all_unreadable (ms me : date) (price_df : list price_row)
    (codes : list string) :
  (forall c t, In c codes -> unreadable (internet t (FACTSHEET_PDF c)) = true) ->
  forall flows w,
  exists lines w',
    backsolve_loop ms me codes price_df flows w = (Return flows, w') /\
    requests w' = requests w ++ map FACTSHEET_PDF codes /\
    stderr w' = stderr w ++ lines /\
    stdout w' = stdout w /\
    Forall2 (fun c line => exists e, line = (c ++ ": " ++ str_exn e)%string)
            codes lines.
Proof.
  induction codes as [| code codes IH]; intros H flows w.
  - exists [], w. simpl. rewrite !app_nil_r. repeat split; constructor.
  - destruct (unreadable_fetch internet code ms w) as (msg & Hmsg & E);
      [apply H; now left |].
    assert (Hr : exists e,
               fetched_at (List.length (requests w)) code = Raise e)
      by (destruct Hmsg as [-> | ->]; eauto).
    destruct Hr as [e He]. rewrite He in E.
    set (w1 := mkworld (requests w ++ [FACTSHEET_PDF code])
                 (stderr w ++ [(code ++ ": " ++ str_exn e)%string]) (stdout w)).
    destruct (IH (fun c t Hc => H c t (or_intror Hc)) flows w1)
      as (lines & w' & E' & R & S & O & F).
    exists ((code ++ ": " ++ str_exn e)%string :: lines), w'.
    split; [| split; [| split; [| split]]].
    + rewrite backsolve_loop_cons. unfold try_except, Tracker.both_fetches, bind.
      rewrite E. unfold print_err. exact E'.
    + rewrite R. simpl. now rewrite <- app_assoc.
    + rewrite S. simpl. now rewrite <- app_assoc.
    + rewrite O. reflexivity.
    + constructor; [now exists e | exact F].
Qed.

(** X17.  When no factsheet of the list can be read, the back-solver
    returns no record, having made one request for each fund and written
    one line for each, the code then the reason, to stderr and nothing
    else. *)
Theorem all_unreadable (month_end : date) (codes : list string)
    (price_df : list price_row) (w : world) :
  (forall c t, In c codes -> unreadable (internet t (FACTSHEET_PDF c)) = true) ->
  exists lines w',
    backsolve_flows month_end codes price_df w = (Return [], w') /\
    requests w' = requests w ++ map FACTSHEET_PDF codes /\
    stderr w' = stderr w ++ lines /\
    stdout w' = stdout w /\
    Forall2 (fun c line => exists e, line = (c ++ ": " ++ str_exn e)%string)
            codes lines.
Proof. intros H. now apply loop_all_unreadable. Qed.

End Script.

(** ** The arithmetic of one record, further *)

Import Binary64 Binary64Facts.

(** X19.  When the closing size is exactly the size carried from the
    starting to the ending price, and that is finite, the flow reported is
    zero. *)
Theorem zero_flow (d : date) (code : string) (s ps pe : float) :
  is_finite (aum_no_flow s ps pe) = true ->
  flow_gbp_m (flow_record d code s (aum_no_flow s ps pe) ps pe) = Zero false.
Proof.
  intros F. cbn [flow_record flow_gbp_m]. unfold flow.
  assert (Z : sub (aum_no_flow s ps pe) (aum_no_flow s ps pe) = Zero false).
  { destruct (aum_no_flow s ps pe) as [| t | t | n]; try discriminate.
    - unfold sub. simpl. now destruct t.
    - unfold sub. cbn [opp add units]. rewrite Z.add_opp_diag_r. reflexivity. }
  rewrite Z. unfold round2.
  pose proof of_Z_100_positive as P.
  destruct (of_Z 100) as [| | | m]; try discriminate.
  simpl in P. apply Z.ltb_lt in P.
  cbn [mul sign xorb rint div].
  replace (m <? 0)%Z with false by (symmetry; apply Z.ltb_ge; lia).
  reflexivity.
Qed.

Lemma add_comm (a b : float) : add a b = add b a.
Proof.
  destruct a as [| s | s | n], b as [| t | t | m]; cbn [add units];
    try reflexivity.
  - destruct s, t; reflexivity.
  - now rewrite andb_comm.
  - now rewrite Z.add_comm.
  - now rewrite Z.add_comm.
  - now rewrite Z.add_comm.
Qed.

Lemma mul_comm (a b : float) : mul a b = mul b a.
Proof.
  destruct a as [| s | s | n], b as [| t | t | m]; cbn [mul sign];
    try reflexivity; try (now rewrite xorb_comm).
  now rewrite Z.mul_comm, xorb_comm.
Qed.

Lemma leb_opp (x y : float) : leb x y = true -> leb (opp y) (opp x) = true.
Proof.
  destruct x as [| [] | s | n], y as [| [] | t | m]; simpl;
    try reflexivity; try discriminate;
    intros H; apply Z.leb_le in H; apply Z.leb_le; lia.
Qed.

Lemma opp_not_nan (x : float) : is_nan x = false -> is_nan (opp x) = false.
Proof. now destruct x. Qed.

(** Addition of a finite number keeps the order, infinities included. *)
Lemma add_mono_any (x y a : float) :
  is_nan x = false -> is_nan y = false -> is_finite a = true ->
  leb x y = true -> leb (add x a) (add y a) = true.
Proof.
  intros Nx Ny Fa L.
  assert (Na : is_nan a = false) by now destruct a.
  destruct (leb_inf_cases x y Nx Ny L) as [[Fx Fy] | [-> | ->]].
  - now apply add_mono_l.
  - replace (add (Inf true) a) with (Inf true) by now destruct a.
    apply leb_neg_inf. rewrite add_comm. now apply add_not_nan.
  - replace (add (Inf false) a) with (Inf false) by now destruct a.
    apply leb_pos_inf. rewrite add_comm. now apply add_not_nan.
Qed.

Lemma sub_antitone_r (a c1 c2 : float) :
  is_finite a = true -> is_nan c1 = false -> is_nan c2 = false ->
  leb c1 c2 = true -> leb (sub a c2) (sub a c1) = true.
Proof.
  intros Fa N1 N2 L. unfold sub.
  rewrite (add_comm a (opp c2)), (add_comm a (opp c1)).
  apply add_mono_any; auto using opp_not_nan, leb_opp.
Qed.

Lemma mul_mono_r (u p1 p2 : float) :
  nonneg u = true -> is_positive p1 = true -> is_positive p2 = true ->
  leb p1 p2 = true -> leb (mul u p1) (mul u p2) = true.
Proof.
  intros Hu H1 H2 L.
  destruct u as [| [] | t | n]; try discriminate.
  - destruct p1 as [| | | n1], p2 as [| | | n2]; try discriminate.
    cbn [mul sign]. simpl in H1, H2. apply Z.ltb_lt in H1, H2.
    replace (n1 <? 0)%Z with false by (symmetry; apply Z.ltb_ge; lia).
    replace (n2 <? 0)%Z with false by (symmetry; apply Z.ltb_ge; lia).
    reflexivity.
  - destruct p1, p2; try discriminate. reflexivity.
  - rewrite (mul_comm (Fin n) p1), (mul_comm (Fin n) p2).
    apply mul_mono_pos; auto; [now destruct p1 | now destruct p2].
Qed.

(** X20.  For positive finite opening size and prices and a finite closing
    size, the flow reported never increases when the ending price grows. *)
Theorem reported_flow_antitone_in_end_price (d : date) (code : string)
    (s ps e pe1 pe2 : float) :
  is_positive s = true -> is_positive ps = true ->
  is_positive pe1 = true -> is_positive pe2 = true ->
  is_finite e = true -> ltb pe1 pe2 = true ->
  leb (flow_gbp_m (flow_record d code s e ps pe2))
      (flow_gbp_m (flow_record d code s e ps pe1)) = true.
Proof.
  intros Hs Hps H1 H2 Fe L. cbn [flow_record flow_gbp_m]. unfold flow.
  pose proof (nonneg_not_nan _ (aum_no_flow_nonneg s ps pe1 Hs Hps H1)) as N1.
  pose proof (nonneg_not_nan _ (aum_no_flow_nonneg s ps pe2 Hs Hps H2)) as N2.
  apply round2_mono; try now apply sub_not_nan.
  apply sub_antitone_r; auto.
  unfold aum_no_flow.
  pose proof of_Z_1000000_positive as M.
  assert (U : nonneg (units_start s ps) = true).
  { unfold units_start. apply div_nonneg_pos; [| exact Hps].
    apply mul_nonneg_pos; [now apply positive_nonneg | exact M]. }
  apply div_mono_pos; auto.
  - apply nonneg_not_nan. now apply mul_nonneg_pos.
  - apply nonneg_not_nan. now apply mul_nonneg_pos.
  - apply mul_mono_r; auto. now apply ltb_leb.
Qed.

(** ** Runs that bear the statements out *)

Lemma zero_flow_witness :
  flow_gbp_m (flow_record q1_end "LIFE01" (f 50)
                (aum_no_flow (f 50) (f 100) (f 110)) (f 100) (f 110))
  = Zero false.
Proof.
  apply (zero_flow q1_end "LIFE01" (f 50) (f 100) (f 110)).
  vm_compute. reflexivity.
Defined.

Lemma reported_flow_antitone_in_end_price_witness :
  leb (flow_gbp_m (flow_record q1_end "LIFE01" (f 50) (f 58) (f 100) (f 110)))
      (flow_gbp_m (flow_record q1_end "LIFE01" (f 50) (f 58) (f 100) (f 105)))
  = true.
Proof.
  apply (reported_flow_antitone_in_end_price q1_end "LIFE01" (f 50) (f 100)
           (f 58) (f 105) (f 110)); vm_compute; reflexivity.
Defined.

Lemma backsolve_flows_effects_witness :
  exists urls lines,
    grows w0 (snd run_gap) urls lines /\
    (List.length urls <= 2 * List.length ["LIFE01"; "PENS01"])%nat /\
    (forall u, In u urls ->
       exists c, In c ["LIFE01"; "PENS01"] /\ u = FACTSHEET_PDF c).
Proof.
  apply (backsolve_flows_effects (steady "Fund size £7.3bn") q1_end
           ["LIFE01"; "PENS01"] prices_with_gap w0 (fst run_gap) (snd run_gap)).
  apply surjective_pairing.
Defined.

Lemma backsolve_flows_rows_witness :
  subseq (map fl_code [mkflow q1_end "LIFE01" (f 3)]) ["LIFE01"] /\
  Forall (fun r => quarter_end r = q1_end) [mkflow q1_end "LIFE01" (f 3)].
Proof.
  apply (backsolve_flows_rows (changing "Fund size £50mn" "Fund size £58mn")
           q1_end ["LIFE01"] (prices "LIFE01" (f 100) (f 110)) w0
           [mkflow q1_end "LIFE01" (f 3)] (snd run_good)).
  apply injective_projections; [vm_compute; reflexivity | reflexivity].
Defined.

Lemma backsolve_flows_raises_only_for_a_gap_witness :
  IndexError "single positional indexer is out-of-bounds"
  = IndexError "single positional indexer is out-of-bounds" /\
  exists c, In c ["LIFE01"; "PENS01"] /\
    (price_at prices_with_gap c (quarter_start q1_end) = None \/
     price_at prices_with_gap c q1_end = None).
Proof.
  apply (backsolve_flows_raises_only_for_a_gap (steady "Fund size £7.3bn")
           q1_end ["LIFE01"; "PENS01"] prices_with_gap w0
           (IndexError "single positional indexer is out-of-bounds")
           (snd run_gap)).
  apply injective_projections; [vm_compute; reflexivity | reflexivity].
Defined.

Lemma backsolve_flows_all_good_witness :
  exists rows w',
    backsolve_flows (steady "Fund size £7.3bn") q1_end ["PENS01"]
      prices_with_gap w0 = (Return rows, w') /\
    map fl_code rows = ["PENS01"] /\
    List.length (requests w')
    = (List.length (requests w0) + 2 * List.length ["PENS01"])%nat.
Proof.
  apply (backsolve_flows_all_good (steady "Fund size £7.3bn") q1_end
           ["PENS01"] prices_with_gap w0).
  repeat constructor; try (intros t; exists (f 7300); vm_compute; reflexivity);
    vm_compute; discriminate.
Defined.

Lemma steady_factsheet_same_size_witness :
  Forall (fun r =>
            exists s ps pe,
              fetched_at (steady "Fund size £7.3bn") 0 (fl_code r) = Return s /\
              price_at prices_with_gap (fl_code r) (quarter_start q1_end)
              = Some ps /\
              price_at prices_with_gap (fl_code r) q1_end = Some pe /\
              flow_gbp_m r = round2 (flow s s ps pe))
         [mkflow q1_end "PENS01" (f (-730))].
Proof.
  apply (steady_factsheet_same_size (steady "Fund size £7.3bn") q1_end
           ["PENS01"] prices_with_gap w0 [mkflow q1_end "PENS01" (f (-730))]
           (snd (backsolve_flows (steady "Fund size £7.3bn") q1_end ["PENS01"]
                   prices_with_gap w0))).
  - reflexivity.
  - apply injective_projections; [vm_compute; reflexivity | reflexivity].
Defined.

Lemma all_unreadable_witness :
  exists lines w',
    backsolve_flows (one_missing "LIFE02" "Fund size £7.3bn") q1_end
      ["LIFE02"] prices_with_gap w0 = (Return [], w') /\
    requests w' = requests w0 ++ map FACTSHEET_PDF ["LIFE02"] /\
    stderr w' = stderr w0 ++ lines /\
    stdout w' = stdout w0 /\
    Forall2 (fun c line => exists e, line = (c ++ ": " ++ str_exn e)%string)
            ["LIFE02"] lines.
Proof.
  apply (all_unreadable (one_missing "LIFE02" "Fund size £7.3bn") q1_end
           ["LIFE02"] prices_with_gap w0).
  intros c t [<- | []]. reflexivity.
Defined.

End BackSolverFacts.

(* ================================================================== *)
(** * More on [main] *)
(* ================================================================== *)

Module MainFacts.
Import Calendar Frame Tracker Scenarios FrameFacts TrackerFacts DriverFacts.
Local Open Scope string_scope.
Local Open Scope list_scope.

Section Main.
Variable internet : nat -> string -> response.

(** X21.  In a month other than January, April, July and October, on a
    Saturday or Sunday, and after the 14th, [main] makes no request, prints
    nothing and leaves [quarterly_flows.csv] as it is; [prices.csv] is
    written all the same. *)
Theorem main_outside_the_window (today : date)
    (codes_life codes_pension : list string)
    (prices_life prices_pension : list price_row) (d : disk) (w : world) :
  opens_quarter (month today) = false \/ 5 <= weekday today \/ 14 < day today ->
  main internet today codes_life codes_pension prices_life prices_pension d w
  = (Return (mkdisk (Some (store_prices (price_file d)
                             (concat prices_life prices_pension)))
                    (flow_file d)), w).
Proof.
  intros H. unfold main.
  destruct (estimation_due today) eqn:E; [| reflexivity].
  apply estimation_due_early_weekday in E.
  destruct E as (Q & W & D). destruct H as [H | [H | H]]; [congruence | lia | lia].
Qed.


End Main.

Lemma main_outside_the_window_witness :
  main (steady "Fund size £7.3bn") (mkdate 2024 4 20) ["LIFE01"] ["PENS01"]
    twice_priced [] (mkdisk None None) w0
  = (Return (mkdisk (Some (store_prices (price_file (mkdisk None None))
                             (concat twice_priced [])))
                    (flow_file (mkdisk None None))), w0).
Proof.
  apply (main_outside_the_window (steady "Fund size £7.3bn")
           (mkdate 2024 4 20) ["LIFE01"] ["PENS01"] twice_priced []
           (mkdisk None None) w0).
  right. left. vm_compute. discriminate.
Defined.


End MainFacts.
